(** * Github_agent: a shallow embedding of [main.py] and [cli.py]

    The repository analyser clones a branch into a scratch directory, walks
    the tree, classifies files by extension, extracts Python imports and
    writes a snapshot.  Pure helpers are Rocq functions; everything that
    touches the file system, the logger, the console or the environment is a
    computation in a state-and-exception monad over an explicit [world]. *)

From Stdlib Require Import String Ascii List Sorted Permutation Lia.
From stdpp Require Import base gmap strings list.
Import ListNotations.
Local Open Scope string_scope.
Set Warnings "-register-all".

(** ** Python strings *)

Module PyStr.

(** [str.lower] on the ASCII range.  Code points outside ASCII are kept as
    they are: none of them lower-cases to a key of the extension table, so
    the table lookup below is not affected. *)
Definition ascii_lower (c : ascii) : ascii :=
  let n := nat_of_ascii c in
  if (65 <=? n)%nat && (n <=? 90)%nat then ascii_of_nat (n + 32) else c.

Fixpoint lower (s : string) : string :=
  match s with
  | EmptyString => EmptyString
  | String c s' => String (ascii_lower c) (lower s')
  end.

(** [s.startswith(c)] for a one-character prefix. *)
Definition startswith_char (s : string) (c : ascii) : bool :=
  match s with
  | String a _ => Ascii.eqb a c
  | EmptyString => false
  end.

(** [s.endswith(suf)]: some tail of [s] is [suf]. *)
Fixpoint endswith (s suf : string) : bool :=
  String.eqb s suf ||
  match s with
  | EmptyString => false
  | String _ s' => endswith s' suf
  end.

(** [s.endswith((suf1, suf2, ...))] *)
Definition endswith_any (s : string) (sufs : list string) : bool :=
  existsb (endswith s) sufs.

(** [s.rfind('.')], [None] standing for -1. *)
Fixpoint rfind_dot (s : string) : option nat :=
  match s with
  | EmptyString => None
  | String c s' =>
      match rfind_dot s' with
      | Some i => Some (S i)
      | None => if Ascii.eqb c "."%char then Some 0%nat else None
      end
  end.

(** [s[i:]] *)
Fixpoint drop_str (i : nat) (s : string) : string :=
  match i, s with
  | O, _ => s
  | S i', String _ s' => drop_str i' s'
  | S _, EmptyString => EmptyString
  end.

(** [s.split(sep)]: never empty. *)
Fixpoint split (sep : ascii) (s : string) : list string :=
  match s with
  | EmptyString => [EmptyString]
  | String c s' =>
      if Ascii.eqb c sep then EmptyString :: split sep s'
      else match split sep s' with
           | h :: t => String c h :: t
           | [] => [String c EmptyString]
           end
  end.

Definition newline : string := String (ascii_of_nat 10) EmptyString.

End PyStr.

(** ** Python dictionaries

    A [dict] keeps its keys in insertion order, and [sorted] below depends on
    that order, so a dictionary is an association list without repeated keys. *)

Module PyDict.

Definition dict (V : Type) : Type := list (string * V).

Fixpoint get {V} (d : dict V) (k : string) : option V :=
  match d with
  | [] => None
  | (k', v) :: d' => if String.eqb k' k then Some v else get d' k
  end.

(** [d.get(k, dflt)] *)
Definition get_default {V} (d : dict V) (k : string) (dflt : V) : V :=
  match get d k with Some v => v | None => dflt end.

(** [d[k] = v]: an existing key keeps its position, a new one goes last. *)
Fixpoint set {V} (d : dict V) (k : string) (v : V) : dict V :=
  match d with
  | [] => [(k, v)]
  | (k', v') :: d' =>
      if String.eqb k' k then (k', v) :: d' else (k', v') :: set d' k v
  end.

Definition keys {V} (d : dict V) : list string := map fst d.
Definition values {V} (d : dict V) : list V := map snd d.
Definition items {V} (d : dict V) : list (string * V) := d.

End PyDict.

(** ** Data model (the two dataclasses) *)

Record FileContext := mkFileContext {
  path : string;
  content : string;
  language : string;
  imports : list string;
  dependencies : list string;
  description : string
}.

(** The nested [structure] dictionary: a name maps to [None] (a file) or to
    the dictionary of a sub-directory. *)
Inductive structure :=
| Leaf
| Sub (d : list (string * structure)).

Record RepoContext := mkRepoContext {
  repo_name : string;
  branch : string;
  files : list FileContext;
  repo_structure : PyDict.dict structure;
  main_languages : list string;
  repo_dependencies : PyDict.dict nat
}.

(** ** File classifier *)

Definition language_map : PyDict.dict string :=
  [ (".py", "python");
    (".js", "javascript");
    (".ts", "typescript");
    (".java", "java");
    (".cpp", "cpp");
    (".go", "go") ].

Definition detect_language (file_extension : string) : string :=
  PyDict.get_default language_map (PyStr.lower file_extension) "unknown".

(** [pathlib.PurePath.suffix] of a final path component: the text from the
    last dot on, unless that dot is the first or the last character. *)
Definition Path_suffix (name : string) : string :=
  match PyStr.rfind_dot name with
  | Some i =>
      if (0 <? i)%nat && (i <? String.length name - 1)%nat
      then PyStr.drop_str i name else EmptyString
  | None => EmptyString
  end.

(** ** Syntax trees and [ast.walk] *)

Record alias := mkAlias { alias_name : string; asname : option string }.

(** Only the two import statements are told apart; every other node kind
    ([Module], [FunctionDef], [If], expressions, ...) is [Other] with its
    child nodes in field order. *)
Inductive node :=
| Import (names : list alias)
| ImportFrom (module : option string) (names : list alias) (level : nat)
| Other (children : list node).

(** [ast.iter_child_nodes]: the children of an import statement are its
    [alias] nodes, which have no children of their own. *)
Definition iter_child_nodes (n : node) : list node :=
  match n with
  | Import names => map (fun _ => Other []) names
  | ImportFrom _ names _ => map (fun _ => Other []) names
  | Other children => children
  end.

Fixpoint node_size (n : node) : nat :=
  match n with
  | Import names => S (length names)
  | ImportFrom _ names _ => S (length names)
  | Other children =>
      S ((fix sizes (l : list node) : nat :=
            match l with
            | [] => 0
            | c :: l' => node_size c + sizes l'
            end) children)
  end.

Definition nodes_size (l : list node) : nat :=
  fold_right (fun n acc => node_size n + acc)%nat 0%nat l.

(** [ast.walk]: breadth first over a queue ([popleft], then [extend] with the
    children).  The queue loop is bounded by [fuel]; [node_size] is enough
    (lemma [walk_queue_fuel]). *)
Fixpoint walk_queue (fuel : nat) (todo : list node) : list node :=
  match fuel with
  | O => []
  | S fuel' =>
      match todo with
      | [] => []
      | n :: rest => n :: walk_queue fuel' (rest ++ iter_child_nodes n)
      end
  end.

Definition ast_walk (tree : node) : list node :=
  walk_queue (node_size tree) [tree].

(** The body of the [for node in ast.walk(tree)] loop. *)
Definition node_imports (n : node) : list string :=
  match n with
  | Import names => map alias_name names
  | ImportFrom module names _ =>
      let module := match module with Some m => m | None => EmptyString end in
      map (fun name => module +:+ "." +:+ alias_name name) names
  | Other _ => []
  end.

Definition collect_imports (tree : node) : list string :=
  flat_map node_imports (ast_walk tree).

(** ** The tree walker *)

Inductive file_data :=
| Text (s : string)      (* decodes as UTF-8 to [s] *)
| Binary.                (* does not decode as UTF-8 *)

(** A directory entry.  [Special] is an entry that is neither a regular file
    nor a directory (a socket, say): [is_file()] is false for it, and both
    listing and opening it raise.  Symbolic links are not modelled.  The
    items of a [Dir] come in the order the operating system lists them. *)
Inductive entry :=
| File (data : file_data)
| Dir (items : list (string * entry))
| Special.

Inductive exn :=
| ClickException (msg : string)
| NoSuchPathError (p : string)
| InvalidGitRepositoryError (p : string)
| GitCommandError (url : string)
| FileNotFoundError (p : string)
| NotADirectoryError (p : string)
| IsADirectoryError (p : string)
| UnicodeDecodeError (p : string)
| OSError (p : string)
| SyntaxError.

Definition exn_str (e : exn) : string :=
  match e with
  | ClickException msg => msg
  | NoSuchPathError p => p
  | InvalidGitRepositoryError p => p
  | GitCommandError url => "git clone failed: " +:+ url
  | FileNotFoundError p => "No such file or directory: " +:+ p
  | NotADirectoryError p => "Not a directory: " +:+ p
  | IsADirectoryError p => "Is a directory: " +:+ p
  | UnicodeDecodeError p => "'utf-8' codec can't decode: " +:+ p
  | OSError p => "No such device or address: " +:+ p
  | SyntaxError => "invalid syntax"
  end.

(** The [continue] test of [build_structure]. *)
Definition skipped (name : string) : bool :=
  PyStr.startswith_char name "."%char || String.eqb name "__pycache__".

(** [build_structure(path, current_dict)]: the dictionary after the loop, or
    the exception raised by [path.iterdir()] somewhere below. *)
Fixpoint build_structure (name : string) (path : entry)
    (current_dict : PyDict.dict structure) : exn + PyDict.dict structure :=
  match path with
  | Dir items =>
      (fix loop (l : list (string * entry)) (cur : PyDict.dict structure)
         : exn + PyDict.dict structure :=
         match l with
         | [] => inr cur
         | (item_name, item) :: l' =>
             if skipped item_name then loop l' cur
             else match item with
                  | File _ => loop l' (PyDict.set cur item_name Leaf)
                  | _ =>
                      match build_structure item_name item [] with
                      | inr sub => loop l' (PyDict.set cur item_name (Sub sub))
                      | inl e => inl e
                      end
                  end
         end) items current_dict
  | _ => inl (NotADirectoryError name)
  end.

(** [os.walk(top)], top-down: one triple [(root, dirnames, filenames)] per
    directory; everything that is not a directory counts as a file name, and
    a [top] that cannot be listed yields nothing.  A path is kept as the list
    of its components. *)
Definition is_dir (e : entry) : bool :=
  match e with Dir _ => true | _ => false end.

Definition dirnames (items : list (string * entry)) : list string :=
  map fst (List.filter (fun it => is_dir (snd it)) items).

Definition filenames (items : list (string * entry)) : list string :=
  map fst (List.filter (fun it => negb (is_dir (snd it))) items).

Fixpoint os_walk (top : list string) (e : entry)
    : list (list string * list string * list string) :=
  match e with
  | Dir items =>
      (top, dirnames items, filenames items) ::
      (fix below (l : list (string * entry)) :=
         match l with
         | [] => []
         | (name, sub) :: l' => (os_walk (top ++ [name]) sub ++ below l')%list
         end) items
  | _ => []
  end.

(** [os.path.join(root, filename)] and the [str] of a path. *)
Definition os_path_join (root : list string) (filename : string) : list string :=
  (root ++ [filename])%list.

Definition path_str (p : list string) : string := String.concat "/" p.

Definition source_suffixes : list string := [".py"; ".js"; ".java"; ".ts"; ".go"].

(** ** Aggregator *)

(** [sorted(items, key=lambda x: x[1], reverse=True)]: the sort is stable,
    also with [reverse=True], so its result is the one of a stable insertion
    sort on descending counts. *)
Fixpoint insert_desc (x : string * nat) (l : list (string * nat)) : list (string * nat) :=
  match l with
  | [] => [x]
  | y :: l' => if (snd y <=? snd x)%nat then x :: y :: l' else y :: insert_desc x l'
  end.

Definition sorted_by_count_desc (l : list (string * nat)) : list (string * nat) :=
  fold_right insert_desc [] l.

Definition count_languages (files : list FileContext) : PyDict.dict nat :=
  fold_left
    (fun language_count file =>
       PyDict.set language_count (language file)
                  (PyDict.get_default language_count (language file) 0 + 1))
    files [].

Definition detect_main_languages (files : list FileContext) : list string :=
  let language_count := count_languages files in
  let sorted_languages := sorted_by_count_desc (PyDict.items language_count) in
  map fst sorted_languages.

Definition aggregate_dependencies (files : list FileContext) : PyDict.dict nat :=
  fold_left
    (fun deps file =>
       fold_left
         (fun deps dep => PyDict.set deps dep (PyDict.get_default deps dep 0 + 1))
         (dependencies file) deps)
    files [].

Definition analyze_dependencies (content language : string) : list string := [].

Definition generate_file_description (content language : string) : string :=
  "Source code file in " +:+ language.

(** ** The world: environment, working directory, logger, console *)

Inductive level := INFO | WARNING | ERROR.

(** The simplified document written next to the pickle. *)
Record file_json := mkFileJson {
  j_path : string;
  j_language : string;
  j_imports : list string;
  j_dependencies : list string;
  j_description : string
}.

Record json_context := mkJsonContext {
  j_repo_name : string;
  j_branch : string;
  j_structure : PyDict.dict structure;
  j_main_languages : list string;
  j_files : list file_json
}.

Inductive payload :=
| Pickle (context : RepoContext)
| Json (document : json_context).

(** Calls that reach outside the process, in the order they were made. *)
Inductive io_event :=
| EvClone (repo_url branch local_path : string)
| EvScan (top : string)
| EvRead (p : string)
| EvWrite (p : string) (data : payload)
| EvRmtree (p : string).

Record world := mkWorld {
  environ : gmap string string;
  cwd : gmap string entry;           (* the working directory, by name *)
  log : list (level * string);
  console : list (bool * string);    (* click.echo: (err, message) *)
  trace : list io_event
}.

(** What the program takes from other packages. *)
Record externals := mkExternals {
  ast_parse : string -> option node;       (* None: ast.parse raises *)
  clone_from : string -> string -> option (list (string * entry));
                                           (* git clone of (url, branch) *)
  is_git_repo : list (string * entry) -> bool;   (* Repo(path) accepts it *)
  json_dumps : json_context -> string
}.

(** ** State and exceptions *)

Definition M (A : Type) : Type := world -> (exn + A) * world.

Definition ret {A} (a : A) : M A := fun w => (inr a, w).

Definition raise {A} (e : exn) : M A := fun w => (inl e, w).

Definition bind {A B} (m : M A) (k : A -> M B) : M B :=
  fun w =>
    match m w with
    | (inr a, w') => k a w'
    | (inl e, w') => (inl e, w')
    end.

Notation "x <- c1 ;; c2" := (bind c1 (fun x => c2))
  (at level 100, c1 at next level, right associativity).
Notation "c1 ;; c2" := (bind c1 (fun _ => c2))
  (at level 100, right associativity).

(** [try: body except Exception as e: handler(e)] *)
Definition try_except {A} (body : M A) (handler : exn -> M A) : M A :=
  fun w =>
    match body w with
    | (inr a, w') => (inr a, w')
    | (inl e, w') => handler e w'
    end.

(** [try: body finally: cleanup]: the cleanup always runs; an exception it
    raises replaces the outcome of the body. *)
Definition try_finally {A} (body : M A) (cleanup : M unit) : M A :=
  fun w =>
    match body w with
    | (r, w') =>
        match cleanup w' with
        | (inr _, w'') => (r, w'')
        | (inl e, w'') => (inl e, w'')
        end
    end.

Definition lift {A} (r : exn + A) : M A := fun w => (r, w).

(** [for x in xs: body], the loop state passed along. *)
Fixpoint for_each {A S} (xs : list A) (body : S -> A -> M S) (s : S) : M S :=
  match xs with
  | [] => ret s
  | x :: xs' => s' <- body s x ;; for_each xs' body s'
  end.

Definition set_cwd (f : gmap string entry -> gmap string entry) (w : world) : world :=
  mkWorld (environ w) (f (cwd w)) (log w) (console w) (trace w).

Definition emit (ev : io_event) : M unit :=
  fun w => (inr tt, mkWorld (environ w) (cwd w) (log w) (console w) (trace w ++ [ev])).

Definition logger (lvl : level) (msg : string) : M unit :=
  fun w => (inr tt, mkWorld (environ w) (cwd w) (log w ++ [(lvl, msg)]) (console w) (trace w)).

Definition click_echo (msg : string) (err : bool) : M unit :=
  fun w => (inr tt, mkWorld (environ w) (cwd w) (log w) (console w ++ [(err, msg)]) (trace w)).

Definition os_getenv (k : string) : M (option string) :=
  fun w => (inr (environ w !! k), w).

Definition os_path_exists (p : string) : M bool :=
  fun w => (inr (match cwd w !! p with Some _ => true | None => false end), w).

(** ** Paths below the working directory *)

Fixpoint child (items : list (string * entry)) (name : string) : option entry :=
  match items with
  | [] => None
  | (n, e) :: items' => if String.eqb n name then Some e else child items' name
  end.

Fixpoint lookup_entry (e : entry) (p : list string) : option entry :=
  match p with
  | [] => Some e
  | name :: p' =>
      match e with
      | Dir items =>
          match child items name with
          | Some sub => lookup_entry sub p'
          | None => None
          end
      | _ => None
      end
  end.

Definition resolve (fs : gmap string entry) (p : list string) : option entry :=
  match p with
  | [] => None
  | top :: rest =>
      match fs !! top with
      | Some e => lookup_entry e rest
      | None => None
      end
  end.

(** [open(file_path, 'r', encoding='utf-8')] followed by [f.read()]. *)
Definition open_read (file_path : list string) : M string :=
  emit (EvRead (path_str file_path)) ;;
  fun w =>
    match resolve (cwd w) file_path with
    | Some (File (Text s)) => (inr s, w)
    | Some (File Binary) => (inl (UnicodeDecodeError (path_str file_path)), w)
    | Some (Dir _) => (inl (IsADirectoryError (path_str file_path)), w)
    | Some Special => (inl (OSError (path_str file_path)), w)
    | None => (inl (FileNotFoundError (path_str file_path)), w)
    end.

(** [open(name, 'w')] or [open(name, 'wb')] and a dump into it. *)
Definition write_file (name : string) (data : file_data) (what : payload) : M unit :=
  fun w =>
    match cwd w !! name with
    | Some (Dir _) => (inl (IsADirectoryError name), w)
    | Some Special => (inl (OSError name), w)
    | _ => emit (EvWrite name what) (set_cwd (insert name (File data)) w)
    end.

(** [shutil.rmtree(p)] *)
Definition shutil_rmtree (p : string) : M unit :=
  emit (EvRmtree p) ;;
  fun w =>
    match cwd w !! p with
    | Some (Dir _) => (inr tt, set_cwd (delete p) w)
    | Some _ => (inl (NotADirectoryError p), w)
    | None => (inl (FileNotFoundError p), w)
    end.

(** ** [main.py]: class [GitHubAnalysisAgent] *)

Section Agent.

Context (ext : externals).

(** [Repo(local_path)] *)
Definition Repo (local_path : string) : M unit :=
  fun w =>
    match cwd w !! local_path with
    | Some (Dir items) =>
        if is_git_repo ext items then (inr tt, w)
        else (inl (InvalidGitRepositoryError local_path), w)
    | Some _ => (inl (InvalidGitRepositoryError local_path), w)
    | None => (inl (NoSuchPathError local_path), w)
    end.

(** [Repo.clone_from(repo_url, local_path, branch=branch)]: git refuses a
    destination that exists and is not an empty directory. *)
Definition Repo_clone_from (repo_url local_path branch : string) : M unit :=
  emit (EvClone repo_url branch local_path) ;;
  fun w =>
    match cwd w !! local_path with
    | None | Some (Dir []) =>
        match clone_from ext repo_url branch with
        | Some items => (inr tt, set_cwd (insert local_path (Dir items)) w)
        | None => (inl (GitCommandError repo_url), w)
        end
    | Some _ => (inl (GitCommandError repo_url), w)
    end.

Definition clone_repository (repo_url branch local_path : string) : M unit :=
  try_except
    (present <- os_path_exists local_path ;;
     if present then Repo local_path
     else
       logger INFO ("Cloning repository: " +:+ repo_url +:+ ", branch: " +:+ branch) ;;
       Repo_clone_from repo_url local_path branch)
    (fun e =>
       logger ERROR ("Error cloning repository: " +:+ exn_str e) ;;
       raise e).

Definition analyze_file_structure (local_path : string) : M (PyDict.dict structure) :=
  emit (EvScan local_path) ;;
  fun w =>
    match cwd w !! local_path with
    | Some root_path => (build_structure local_path root_path [], w)
    | None => (inl (FileNotFoundError local_path), w)
    end.

Definition extract_imports (content language : string) : M (list string) :=
  if String.eqb language "python" then
    try_except
      (tree <- lift (match ast_parse ext content with
                     | Some t => inr t
                     | None => inl SyntaxError
                     end) ;;
       ret (collect_imports tree))
      (fun _ =>
         logger WARNING "Could not parse Python imports" ;;
         ret [])
  else ret [].

Definition analyze_file_content (file_path : list string) : M FileContext :=
  content <- open_read file_path ;;
  let file_ext := Path_suffix (List.last file_path EmptyString) in
  let language := detect_language file_ext in
  imports <- extract_imports content language ;;
  ret (mkFileContext (path_str file_path) content language imports
         (analyze_dependencies content language)
         (generate_file_description content language)).

Definition to_json (context : RepoContext) : json_context :=
  mkJsonContext (repo_name context) (branch context) (repo_structure context)
    (main_languages context)
    (map (fun f => mkFileJson (path f) (language f) (imports f)
                     (dependencies f) (description f))
         (files context)).

Definition save_context (context : RepoContext) (filename : string) : M unit :=
  write_file filename Binary (Pickle context) ;;
  let json_context := to_json context in
  write_file "repo_context.json" (Text (json_dumps ext json_context))
    (Json json_context).

(** The triples of [os.walk(top)].  The generator is lazy in Python, but
    nothing in the loop below changes the tree, so it is listed up front. *)
Definition os_walk_io (top : string) : M (list (list string * list string * list string)) :=
  emit (EvScan top) ;;
  fun w =>
    (inr (match cwd w !! top with
          | Some e => os_walk [top] e
          | None => []
          end), w).

(** The two nested [for] loops that fill [files]. *)
Definition analyze_filenames (root : list string) (filenames : list string)
    (files : list FileContext) : M (list FileContext) :=
  for_each filenames
    (fun files filename =>
       if PyStr.endswith_any filename source_suffixes then
         file_context <- analyze_file_content (os_path_join root filename) ;;
         ret (files ++ [file_context])%list
       else ret files)
    files.

Definition analyze_files (walk : list (list string * list string * list string))
    : M (list FileContext) :=
  for_each walk
    (fun files '(root, _, filenames) => analyze_filenames root filenames files)
    [].

Definition temp_dir_of (branch : string) : string := "temp_repo_" +:+ branch.

Definition analyze_repository (repo_url branch : string) : M RepoContext :=
  let temp_dir := temp_dir_of branch in
  try_finally
    (clone_repository repo_url branch temp_dir ;;
     structure <- analyze_file_structure temp_dir ;;
     walk <- os_walk_io temp_dir ;;
     files <- analyze_files walk ;;
     let repo_context :=
       mkRepoContext (List.last (PyStr.split "/"%char repo_url) EmptyString)
         branch files structure
         (detect_main_languages files) (aggregate_dependencies files) in
     save_context repo_context "repo_context.pkl" ;;
     ret repo_context)
    (present <- os_path_exists temp_dir ;;
     if present then shutil_rmtree temp_dir else ret tt).

(** ** [cli.py] *)

(** [GitHubAnalysisAgent(github_token)]: builds the API client and the
    logger; nothing outside the process is touched. *)
Definition GitHubAnalysisAgent (github_token : string) : M unit := ret tt.

Definition analyze_repo (repo_url branch output : string) : M unit :=
  github_token <- os_getenv "GITHUB_TOKEN" ;;
  match github_token with
  | None | Some EmptyString =>
      raise (ClickException "Please set the GITHUB_TOKEN environment variable")
  | Some token =>
      try_except
        (GitHubAnalysisAgent token ;;
         context <- analyze_repository repo_url branch ;;
         click_echo ("Analysis completed. Context saved to " +:+ output) false)
        (fun e => click_echo ("Error: " +:+ exn_str e) true)
  end.

End Agent.

(** ** Reference readings of the statements about the walker and the ranking *)

(** Per-language file count. *)
Definition file_count (files : list FileContext) (lang : string) : nat :=
  length (List.filter (fun f => String.eqb (language f) lang) files).

Definition hidden (name : string) : bool := PyStr.startswith_char name "."%char.

(** The entries of a directory whose names pass [keep], all the way down:
    a regular file becomes the leaf marker, anything else a sub-mapping. *)
Fixpoint entries_where (keep : string -> bool) (e : entry) : PyDict.dict structure :=
  match e with
  | Dir items =>
      (fix go (l : list (string * entry)) : PyDict.dict structure :=
         match l with
         | [] => []
         | (name, item) :: l' =>
             if keep name then
               (name, match item with
                      | File _ => Leaf
                      | _ => Sub (entries_where keep item)
                      end) :: go l'
             else go l'
         end) items
  | _ => []
  end.

(** "Exactly the non-hidden entries". *)
Definition non_hidden_entries : entry -> PyDict.dict structure :=
  entries_where (fun name => negb (hidden name)).

(** Exactly the entries that are neither hidden nor a [__pycache__]. *)
Definition visible_entries : entry -> PyDict.dict structure :=
  entries_where (fun name => negb (skipped name)).

Fixpoint distinct (l : list string) : bool :=
  match l with
  | [] => true
  | x :: l' => negb (existsb (String.eqb x) l') && distinct l'
  end.

(** A tree the walker can list to the end: below the root, every entry that is
    not skipped is a regular file or a listable directory, and no directory
    holds one name twice. *)
Fixpoint walkable (e : entry) : bool :=
  match e with
  | Dir items =>
      distinct (map fst items) &&
      (fix all (l : list (string * entry)) : bool :=
         match l with
         | [] => true
         | (name, item) :: l' =>
             (skipped name ||
              match item with File _ => true | _ => walkable item end) && all l'
         end) items
  | _ => false
  end.

(** ** A reference parser for the import statements

    A stand-in for [ast.parse] on a small fragment, in canonical spacing:
    blank lines, [pass], [import NAME(, NAME)*] and
    [from NAME import IDENT(, IDENT)*].  On that fragment it builds the tree
    CPython builds; everything else is rejected. *)

Module RefParser.

Definition is_letter (c : ascii) : bool :=
  let n := nat_of_ascii c in
  ((65 <=? n) && (n <=? 90) || (97 <=? n) && (n <=? 122) || (n =? 95))%nat.

Definition is_digit (c : ascii) : bool :=
  let n := nat_of_ascii c in ((48 <=? n) && (n <=? 57))%nat.

Fixpoint all_chars (p : ascii -> bool) (s : string) : bool :=
  match s with
  | EmptyString => true
  | String c s' => p c && all_chars p s'
  end.

Definition keywords : list string :=
  ["False"; "None"; "True"; "and"; "as"; "assert"; "async"; "await"; "break";
   "class"; "continue"; "def"; "del"; "elif"; "else"; "except"; "finally";
   "for"; "from"; "global"; "if"; "import"; "in"; "is"; "lambda"; "nonlocal";
   "not"; "or"; "pass"; "raise"; "return"; "try"; "while"; "with"; "yield"].

Definition identifier (s : string) : bool :=
  match s with
  | EmptyString => false
  | String c s' =>
      is_letter c && all_chars (fun a => is_letter a || is_digit a) s' &&
      negb (existsb (String.eqb s) keywords)
  end.

Definition dotted_name (s : string) : bool :=
  forallb identifier (PyStr.split "."%char s).

(** [Some n] when the word is [n] followed by a comma. *)
Fixpoint before_comma (w : string) : option string :=
  match w with
  | EmptyString => None
  | String c EmptyString => if Ascii.eqb c ","%char then Some EmptyString else None
  | String c w' => option_map (String c) (before_comma w')
  end.

Fixpoint name_list (ok : string -> bool) (ws : list string) : option (list alias) :=
  match ws with
  | [] => None
  | [w] => if ok w then Some [mkAlias w None] else None
  | w :: ws' =>
      match before_comma w with
      | Some n =>
          if ok n then option_map (cons (mkAlias n None)) (name_list ok ws')
          else None
      | None => None
      end
  end.

(** One logical line: [None] is a syntax error, [Some []] a blank line. *)
Definition statement (line : string) : option (list node) :=
  match PyStr.split " "%char line with
  | [w] =>
      if String.eqb w EmptyString then Some []
      else if String.eqb w "pass" then Some [Other []]
      else None
  | kw :: ws =>
      if String.eqb kw "import" then
        option_map (fun names => [Import names]) (name_list dotted_name ws)
      else if String.eqb kw "from" then
        match ws with
        | m :: kw' :: ws' =>
            if String.eqb kw' "import" && dotted_name m then
              option_map (fun names => [ImportFrom (Some m) names 0])
                         (name_list identifier ws')
            else None
        | _ => None
        end
      else None
  | [] => None
  end.

Fixpoint statements (lines : list string) : option (list node) :=
  match lines with
  | [] => Some []
  | line :: lines' =>
      match statement line, statements lines' with
      | Some st, Some body => Some (st ++ body)%list
      | _, _ => None
      end
  end.

(** [Module(body=...)] *)
Definition parse (source : string) : option node :=
  option_map Other (statements (PyStr.split (ascii_of_nat 10) source)).

End RefParser.

(** ** A sample run, for the closed examples *)

Module Sample.

Definition two_imports : string :=
  "import os" +:+ PyStr.newline +:+ "from a.b import c".

Definition repo_tree : list (string * entry) :=
  [ (".git", Dir [("HEAD", File (Text "ref: refs/heads/main"))]);
    ("README.md", File (Text "# demo"));
    ("app.py", File (Text two_imports));
    ("pkg", Dir [ ("util.js", File (Text "export {}"));
                  ("broken.py", File (Text "import"));
                  ("__pycache__", Dir [("broken.cpython-311.pyc", File Binary)]) ]);
    ("native.cpp", File (Text "int main() { return 0; }")) ].

Definition url : string := "https://github.com/demo/repo".

(** The text of the JSON document is not looked at below; the stand-in
    serialiser keeps the two scalar fields. *)
Definition externals : externals :=
  mkExternals
    RefParser.parse
    (fun repo_url branch =>
       if String.eqb repo_url url && String.eqb branch "main"
       then Some repo_tree else None)
    (fun items => match child items ".git" with Some _ => true | None => false end)
    (fun document => j_repo_name document +:+ "@" +:+ j_branch document).

Definition with_token : gmap string string := {[ "GITHUB_TOKEN" := "ghp_demo" ]}.

(** Nothing cloned yet. *)
Definition fresh : world := mkWorld with_token ∅ [] [] [].

(** The scratch directory of branch [main] is already there. *)
Definition cloned : world :=
  mkWorld with_token {[ "temp_repo_main" := Dir repo_tree ]} [] [] [].

(** No credential in the environment. *)
Definition no_token : world :=
  mkWorld ∅ {[ "temp_repo_main" := Dir repo_tree ]} [] [] [].

(** A clone whose Python file is not UTF-8: reading it raises. *)
Definition undecodable : world :=
  mkWorld with_token
    {[ "temp_repo_main" := Dir [(".git", Dir []); ("blob.py", File Binary)] ]}
    [] [] [].

End Sample.

Definition clone_events (t : list io_event) : list io_event :=
  List.filter (fun ev => match ev with EvClone _ _ _ => true | _ => false end) t.

(** Named forms of the local loops, for the statements below. *)

Definition build_items : list (string * entry) -> PyDict.dict structure
    -> exn + PyDict.dict structure :=
  fix loop (l : list (string * entry)) (cur : PyDict.dict structure) :=
    match l with
    | [] => inr cur
    | (item_name, item) :: l' =>
        if skipped item_name then loop l' cur
        else match item with
             | File _ => loop l' (PyDict.set cur item_name Leaf)
             | _ =>
                 match build_structure item_name item [] with
                 | inr sub => loop l' (PyDict.set cur item_name (Sub sub))
                 | inl e => inl e
                 end
             end
    end.

Definition entries_of (keep : string -> bool) : list (string * entry) -> PyDict.dict structure :=
  fix go (l : list (string * entry)) :=
    match l with
    | [] => []
    | (name, item) :: l' =>
        if keep name then
          (name, match item with
                 | File _ => Leaf
                 | _ => Sub (entries_where keep item)
                 end) :: go l'
        else go l'
    end.

Definition walkable_items : list (string * entry) -> bool :=
  fix all (l : list (string * entry)) :=
    match l with
    | [] => true
    | (name, item) :: l' =>
        (skipped name ||
         match item with File _ => true | _ => walkable item end) && all l'
    end.

Definition is_import (n : node) : bool :=
  match n with Other _ => false | _ => true end.

(** A computation leaves an observation [f] of the world as it was. *)
Definition preserves {X A} (f : world -> X) (m : M A) : Prop :=
  forall w, f (snd (m w)) = f w.

Definition language_labels : list string :=
  ["python"; "javascript"; "typescript"; "java"; "cpp"; "go"; "unknown"].

(** The counting loop shared by the two aggregators:
    [d[k] = d.get(k, 0) + 1] for each [k] in turn. *)
Definition tally (ks : list string) (d : PyDict.dict nat) : PyDict.dict nat :=
  fold_left (fun d k => PyDict.set d k (PyDict.get_default d k 0 + 1)) ks d.

(** What listing and reading never change: the files of the working
    directory and the clones made so far. *)
Definition static (w : world) : gmap string entry * list io_event :=
  (cwd w, clone_events (trace w)).

(** ** Reference readings for the further properties *)

(** The nodes of a forest level by level, [depth] levels deep. *)
Fixpoint level_order (depth : nat) (q : list node) : list node :=
  match depth with
  | O => []
  | S d => (q ++ level_order d (flat_map iter_child_nodes q))%list
  end.

(** The nodes of a tree in source order: a node, then its children's trees. *)
Fixpoint preorder (n : node) : list node :=
  n :: match n with
       | Import names => map (fun _ => Other []) names
       | ImportFrom _ names _ => map (fun _ => Other []) names
       | Other children =>
           (fix go (l : list node) : list node :=
              match l with
              | [] => []
              | c :: l' => (preorder c ++ go l')%list
              end) children
       end.

(** What [extract_imports] returns, without the logging. *)
Definition imports_of (ext : externals) (content language : string) : list string :=
  if String.eqb language "python" then
    match ast_parse ext content with
    | Some tree => collect_imports tree
    | None => []
    end
  else [].

(** The record [analyze_file_content] makes for a readable file. *)
Definition file_record (ext : externals) (file_path : list string) (content : string)
    : FileContext :=
  let language := detect_language (Path_suffix (List.last file_path EmptyString)) in
  mkFileContext (path_str file_path) content language
    (imports_of ext content language) []
    ("Source code file in " +:+ language).

Definition selected (filename : string) : bool :=
  PyStr.endswith_any filename source_suffixes.

(** The records of the files of one directory, in listing order. *)
Definition dir_records (ext : externals) (root : list string)
    (items : list (string * entry)) : list FileContext :=
  flat_map
    (fun it =>
       match snd it with
       | File (Text content) =>
           if selected (fst it)
           then [file_record ext (os_path_join root (fst it)) content]
           else []
       | _ => []
       end)
    items.

(** The records of a whole tree in the order of [os.walk]: the files of a
    directory first, then its sub-directories one after the other, hidden
    ones included. *)
Fixpoint tree_records (ext : externals) (top : list string) (e : entry)
    : list FileContext :=
  match e with
  | Dir items =>
      (dir_records ext top items ++
       (fix below (l : list (string * entry)) : list FileContext :=
          match l with
          | [] => []
          | (name, sub) :: l' => (tree_records ext (top ++ [name]) sub ++ below l')%list
          end) items)%list
  | _ => []
  end.

Definition records_below (ext : externals) (top : list string)
    : list (string * entry) -> list FileContext :=
  fix below (l : list (string * entry)) : list FileContext :=
    match l with
    | [] => []
    | (name, sub) :: l' => (tree_records ext (top ++ [name]) sub ++ below l')%list
    end.

Definition walk_below (top : list string)
    : list (string * entry) -> list (list string * list string * list string) :=
  fix below (l : list (string * entry)) :=
    match l with
    | [] => []
    | (name, sub) :: l' => (os_walk (top ++ [name]) sub ++ below l')%list
    end.

(** A tree whose every selected file can be read: no directory holds one name
    twice, and an entry with a selected name is a directory or a text file. *)
Fixpoint analysable (e : entry) : bool :=
  match e with
  | Dir items =>
      distinct (map fst items) &&
      (fix all (l : list (string * entry)) : bool :=
         match l with
         | [] => true
         | (name, item) :: l' =>
             match item with
             | Dir _ => analysable item
             | File (Text _) => true
             | _ => negb (selected name)
             end && all l'
         end) items
  | _ => true
  end.

Definition analysable_items : list (string * entry) -> bool :=
  fix all (l : list (string * entry)) : bool :=
    match l with
    | [] => true
    | (name, item) :: l' =>
        match item with
        | Dir _ => analysable item
        | File (Text _) => true
        | _ => negb (selected name)
        end && all l'
    end.

(** No entry that is neither file nor directory can be reached through
    entries the walker does not skip. *)
Fixpoint listable (e : entry) : bool :=
  match e with
  | Dir items =>
      (fix all (l : list (string * entry)) : bool :=
         match l with
         | [] => true
         | (name, item) :: l' =>
             (skipped name ||
              match item with File _ => true | _ => listable item end) && all l'
         end) items
  | _ => false
  end.

Definition listable_items : list (string * entry) -> bool :=
  fix all (l : list (string * entry)) : bool :=
    match l with
    | [] => true
    | (name, item) :: l' =>
        (skipped name ||
         match item with File _ => true | _ => listable item end) && all l'
    end.

(** A structure mapping without skipped names, at any depth. *)
Fixpoint clean (s : structure) : bool :=
  match s with
  | Leaf => true
  | Sub d =>
      (fix all (l : list (string * structure)) : bool :=
         match l with
         | [] => true
         | (name, s') :: l' => negb (skipped name) && clean s' && all l'
         end) d
  end.

(** The distinct elements of a list, each at its first occurrence. *)
Fixpoint first_seen (ks : list string) : list string :=
  match ks with
  | [] => []
  | k :: ks' => k :: List.filter (fun k' => negb (String.eqb k k')) (first_seen ks')
  end.

(** What stands behind the scratch path once [clone_repository] has
    returned: the directory found there, or the clone just made. *)
Definition fetched (ext : externals) (repo_url branch : string) (w : world)
    : option (list (string * entry)) :=
  match cwd w !! temp_dir_of branch with
  | Some (Dir items) => if is_git_repo ext items then Some items else None
  | Some _ => None
  | None => clone_from ext repo_url branch
  end.

Definition writable (fs : gmap string entry) (name : string) : bool :=
  match fs !! name with
  | Some (Dir _) | Some Special => false
  | _ => true
  end.

(** What only [click.echo] changes, and nothing changes the environment. *)
Definition quiet (w : world) : gmap string string * list (bool * string) :=
  (environ w, console w).

(** A name that is one path component: it holds no ['/'].  The working
    directory is kept by name, so the scratch path is faithful to the file
    system only when it is one. *)
Definition one_component (name : string) : bool :=
  match PyStr.split "/"%char name with
  | [_] => true
  | _ => false
  end.

(** * Properties *)

(** ** Strings *)

Lemma endswith_cons c s suf :
  PyStr.endswith (String c s) suf = String.eqb (String c s) suf || PyStr.endswith s suf.
Proof. reflexivity. Qed.

Lemma endswith_nil suf : PyStr.endswith EmptyString suf = String.eqb EmptyString suf.
Proof. unfold PyStr.endswith. apply orb_false_r. Qed.

Lemma endswith_refl s : PyStr.endswith s s = true.
Proof.
  destruct s; [reflexivity|]. rewrite endswith_cons, String.eqb_refl. reflexivity.
Qed.

Lemma endswith_app s suf :
  PyStr.endswith s suf = true <-> exists pre, s = pre +:+ suf.
Proof.
  split.
  - induction s as [|c s IH]; intros H.
    + rewrite endswith_nil in H. apply String.eqb_eq in H. subst.
      exists EmptyString. reflexivity.
    + rewrite endswith_cons in H. apply orb_true_iff in H as [H|H].
      * apply String.eqb_eq in H. subst. exists EmptyString. reflexivity.
      * destruct (IH H) as [pre ->]. exists (String c pre). reflexivity.
  - intros [pre ->]. induction pre as [|c pre IH].
    + apply endswith_refl.
    + change (String c pre +:+ suf) with (String c (pre +:+ suf)).
      rewrite endswith_cons, IH. apply orb_true_r.
Qed.

Lemma endswith_length s suf :
  PyStr.endswith s suf = true -> String.length suf <= String.length s.
Proof.
  induction s as [|c s IH]; intros H.
  - rewrite endswith_nil in H. apply String.eqb_eq in H. subst. simpl. lia.
  - rewrite endswith_cons in H. apply orb_true_iff in H as [H|H].
    + apply String.eqb_eq in H. subst. lia.
    + specialize (IH H). simpl. lia.
Qed.

(** The last dot of a name that ends with [suf], when the only dot of [suf]
    is its first character. *)
Lemma rfind_dot_endswith s suf :
  PyStr.rfind_dot suf = Some 0 ->
  PyStr.endswith s suf = true ->
  PyStr.rfind_dot s = Some (String.length s - String.length suf) /\
  PyStr.drop_str (String.length s - String.length suf) s = suf.
Proof.
  intros Hsuf. induction s as [|c s IH]; intros H.
  - rewrite endswith_nil in H. apply String.eqb_eq in H. subst.
    simpl in Hsuf. discriminate.
  - rewrite endswith_cons in H. apply orb_true_iff in H as [H|H].
    + apply String.eqb_eq in H. subst suf. rewrite Nat.sub_diag. split; [exact Hsuf|reflexivity].
    + destruct (IH H) as [IH1 IH2].
      pose proof (endswith_length _ _ H) as Hlen.
      replace (String.length (String c s) - String.length suf)
        with (S (String.length s - String.length suf)) by (simpl; lia).
      split.
      * simpl. rewrite IH1. reflexivity.
      * simpl. exact IH2.
Qed.

Lemma Path_suffix_endswith s suf :
  PyStr.rfind_dot suf = Some 0 ->
  PyStr.endswith s suf = true ->
  Path_suffix s = suf \/ Path_suffix s = EmptyString.
Proof.
  intros Hsuf H. destruct (rfind_dot_endswith s suf Hsuf H) as [H1 H2].
  unfold Path_suffix. rewrite H1.
  destruct (_ && _); [left; exact H2 | right; reflexivity].
Qed.

Lemma lower_idempotent s : PyStr.lower (PyStr.lower s) = PyStr.lower s.
Proof.
  induction s as [|c s IH]; simpl; [reflexivity|]. rewrite IH. f_equal.
  destruct c as [[] [] [] [] [] [] [] []]; reflexivity.
Qed.

(** ** Dictionaries *)

Lemma dict_get_set {V} (d : PyDict.dict V) k v k' :
  PyDict.get (PyDict.set d k v) k' =
  if String.eqb k k' then Some v else PyDict.get d k'.
Proof.
  induction d as [|[k0 v0] d IH]; simpl.
  - reflexivity.
  - destruct (String.eqb k0 k) eqn:E0; simpl.
    + apply String.eqb_eq in E0. subst k0.
      destruct (String.eqb k k'); reflexivity.
    + rewrite IH. destruct (String.eqb k0 k') eqn:E1; [|reflexivity].
      apply String.eqb_eq in E1. subst k0.
      rewrite String.eqb_sym, E0. reflexivity.
Qed.

Lemma dict_get_None {V} (d : PyDict.dict V) k :
  PyDict.get d k = None <-> ~ In k (PyDict.keys d).
Proof.
  induction d as [|[k0 v0] d IH]; simpl.
  - tauto.
  - destruct (String.eqb k0 k) eqn:E.
    + apply String.eqb_eq in E. split; [discriminate | tauto].
    + apply String.eqb_neq in E. rewrite IH. tauto.
Qed.

Lemma dict_set_fresh {V} (d : PyDict.dict V) k v :
  ~ In k (PyDict.keys d) -> PyDict.set d k v = (d ++ [(k, v)])%list.
Proof.
  induction d as [|[k0 v0] d IH]; simpl; intros H.
  - reflexivity.
  - destruct (String.eqb k0 k) eqn:E.
    + apply String.eqb_eq in E. tauto.
    + rewrite IH by tauto. reflexivity.
Qed.

Lemma dict_keys_set {V} (d : PyDict.dict V) k v :
  PyDict.keys (PyDict.set d k v) =
  match PyDict.get d k with
  | Some _ => PyDict.keys d
  | None => (PyDict.keys d ++ [k])%list
  end.
Proof.
  induction d as [|[k0 v0] d IH]; [reflexivity|].
  cbn [PyDict.set PyDict.get]. destruct (String.eqb k0 k) eqn:E.
  - reflexivity.
  - change (PyDict.keys ((k0, v0) :: PyDict.set d k v))
      with (k0 :: PyDict.keys (PyDict.set d k v)).
    rewrite IH. destruct (PyDict.get d k); reflexivity.
Qed.

Lemma dict_keys_set_In {V} (d : PyDict.dict V) k v k' :
  In k' (PyDict.keys (PyDict.set d k v)) <-> k' = k \/ In k' (PyDict.keys d).
Proof.
  rewrite dict_keys_set. destruct (PyDict.get d k) eqn:E.
  - split; [tauto|]. intros [->|H]; [|exact H].
    destruct (in_dec string_dec k (PyDict.keys d)) as [Hin|Hn]; [exact Hin|].
    apply dict_get_None in Hn. congruence.
  - rewrite in_app_iff. simpl. intuition congruence.
Qed.

Lemma dict_keys_set_NoDup {V} (d : PyDict.dict V) k v :
  NoDup (PyDict.keys d) -> NoDup (PyDict.keys (PyDict.set d k v)).
Proof.
  intros H. rewrite dict_keys_set. destruct (PyDict.get d k) eqn:E; [exact H|].
  apply dict_get_None in E.
  apply NoDup_app. split; [exact H|]. split; [|apply NoDup_singleton].
  intros x Hx Hx'. apply list_elem_of_In in Hx, Hx'. simpl in Hx'.
  destruct Hx' as [->|[]]. exact (E Hx).
Qed.

(** ** [ast.walk] visits every node: the fuel is enough *)

Lemma nodes_size_cons n l : nodes_size (n :: l) = node_size n + nodes_size l.
Proof. reflexivity. Qed.

Lemma nodes_size_app l1 l2 :
  nodes_size (l1 ++ l2) = nodes_size l1 + nodes_size l2.
Proof.
  induction l1 as [|n l1 IH]; simpl; [reflexivity|].
  unfold nodes_size in *. simpl. rewrite IH. lia.
Qed.

Lemma nodes_size_leaves {A} (l : list A) :
  nodes_size (map (fun _ => Other []) l) = length l.
Proof. induction l as [|a l IH]; [reflexivity|]. unfold nodes_size in *. simpl. rewrite IH. reflexivity. Qed.

Lemma node_size_children n :
  node_size n = S (nodes_size (iter_child_nodes n)).
Proof.
  destruct n as [names|m names lv|children]; simpl.
  - rewrite nodes_size_leaves. reflexivity.
  - rewrite nodes_size_leaves. reflexivity.
  - reflexivity.
Qed.

Lemma walk_queue_length fuel todo :
  nodes_size todo <= fuel -> length (walk_queue fuel todo) = nodes_size todo.
Proof.
  revert todo. induction fuel as [|fuel IH]; intros todo H.
  - destruct todo as [|n rest]; [reflexivity|].
    unfold nodes_size in H. simpl in H. rewrite node_size_children in H. lia.
  - destruct todo as [|n rest]; [reflexivity|].
    cbn [walk_queue length]. rewrite IH.
    + rewrite nodes_size_app. unfold nodes_size at 3. simpl.
      rewrite node_size_children. fold (nodes_size rest). lia.
    + rewrite nodes_size_app. unfold nodes_size in H. simpl in H.
      rewrite node_size_children in H. fold (nodes_size rest) in H. lia.
Qed.

(** More fuel than the size of the queue changes nothing. *)
Lemma walk_queue_fuel fuel todo :
  nodes_size todo <= fuel -> walk_queue fuel todo = walk_queue (nodes_size todo) todo.
Proof.
  revert todo. induction fuel as [|fuel IH]; intros todo H.
  - replace (nodes_size todo) with 0 by lia. reflexivity.
  - destruct todo as [|n rest]; [reflexivity|].
    assert (Hsz : nodes_size (n :: rest)
                  = S (nodes_size (rest ++ iter_child_nodes n))).
    { rewrite nodes_size_app. unfold nodes_size at 1. simpl.
      rewrite node_size_children. fold (nodes_size rest). lia. }
    rewrite Hsz. cbn [walk_queue]. f_equal. apply IH. lia.
Qed.

Lemma ast_walk_length tree : length (ast_walk tree) = node_size tree.
Proof.
  unfold ast_walk. rewrite walk_queue_length; unfold nodes_size; simpl; lia.
Qed.

(** A queue of import statements followed by childless nodes is walked in
    queue order, the [alias] children of the statements coming last. *)
Lemma walk_queue_leaves fuel (ls : list node) :
  Forall (fun n => iter_child_nodes n = []) ls ->
  length ls <= fuel -> walk_queue fuel ls = ls.
Proof.
  revert ls. induction fuel as [|fuel IH]; intros ls Hl Hf.
  - destruct ls; [reflexivity|simpl in Hf; lia].
  - destruct ls as [|n ls]; [reflexivity|].
    inversion Hl as [|? ? Hn Hls]; subst. cbn [walk_queue]. rewrite Hn, app_nil_r.
    f_equal. apply IH; [exact Hls|simpl in Hf; lia].
Qed.

Lemma walk_queue_imports (stmts ls : list node) fuel :
  forallb is_import stmts = true ->
  Forall (fun n => iter_child_nodes n = []) ls ->
  nodes_size (stmts ++ ls) <= fuel ->
  walk_queue fuel (stmts ++ ls) = (stmts ++ ls ++ flat_map iter_child_nodes stmts)%list.
Proof.
  revert ls fuel. induction stmts as [|s stmts IH]; intros ls fuel Hs Hl Hf.
  - simpl. rewrite app_nil_r. apply walk_queue_leaves; [exact Hl|].
    simpl in Hf. clear - Hl Hf. revert fuel Hf.
    induction Hl as [|n ls Hn Hl IH]; intros fuel Hf; simpl; [lia|].
    unfold nodes_size in Hf. simpl in Hf. fold (nodes_size ls) in Hf.
    rewrite node_size_children in Hf. destruct fuel; [lia|].
    specialize (IH fuel). lia.
  - simpl in Hs. apply andb_true_iff in Hs as [Hs1 Hs2].
    destruct fuel as [|fuel].
    { unfold nodes_size in Hf. simpl in Hf. rewrite node_size_children in Hf. lia. }
    change ((s :: stmts) ++ ls)%list with (s :: (stmts ++ ls))%list.
    cbn [walk_queue]. rewrite <- app_assoc, IH.
    + simpl. rewrite <- !app_assoc. reflexivity.
    + exact Hs2.
    + apply Forall_app. split; [exact Hl|].
      destruct s as [names|m names lv|ch]; [| |discriminate];
        simpl; apply Forall_forall; intros x Hx; apply list_elem_of_In in Hx;
        apply in_map_iff in Hx as [? [<- _]]; reflexivity.
    + change ((s :: stmts) ++ ls)%list with (s :: (stmts ++ ls))%list in Hf.
      rewrite nodes_size_cons, node_size_children in Hf.
      rewrite !nodes_size_app in *. lia.
Qed.

(** For a module whose body is a sequence of import statements, the imports
    are those of the statements, in source order. *)
Lemma collect_imports_module body :
  forallb is_import body = true ->
  collect_imports (Other body) = flat_map node_imports body.
Proof.
  intros Hb. unfold collect_imports, ast_walk.
  rewrite node_size_children. cbn [walk_queue iter_child_nodes app flat_map node_imports].
  rewrite <- (app_nil_r body) at 2.
  rewrite walk_queue_imports; [|exact Hb|constructor|rewrite app_nil_r; lia].
  simpl. rewrite flat_map_app.
  replace (flat_map node_imports (flat_map iter_child_nodes body)) with (@nil string).
  - apply app_nil_r.
  - induction body as [|s body IH]; [reflexivity|].
    simpl in Hb. apply andb_true_iff in Hb as [Hs Hb].
    simpl. rewrite flat_map_app, <- (IH Hb), app_nil_r.
    destruct s as [names|m names lv|ch]; [| |discriminate]; simpl;
      induction names; auto.
Qed.

(** ** Running computations *)

Lemma run_bind {A B} (m : M A) (k : A -> M B) w :
  bind m k w = match m w with
               | (inr a, w') => k a w'
               | (inl e, w') => (inl e, w')
               end.
Proof. reflexivity. Qed.

Lemma preserves_ret {X A} (f : world -> X) (a : A) : preserves f (ret a).
Proof. intros w. reflexivity. Qed.

Lemma preserves_raise {X A} (f : world -> X) e : preserves f (@raise A e).
Proof. intros w. reflexivity. Qed.

Lemma preserves_lift {X A} (f : world -> X) (r : exn + A) : preserves f (lift r).
Proof. intros w. reflexivity. Qed.

Lemma preserves_bind {X A B} (f : world -> X) (m : M A) (k : A -> M B) :
  preserves f m -> (forall a, preserves f (k a)) -> preserves f (bind m k).
Proof.
  intros Hm Hk w. unfold bind. specialize (Hm w).
  destruct (m w) as [[e|a] w1]; simpl in *; [exact Hm|].
  rewrite Hk. exact Hm.
Qed.

Lemma preserves_try_except {X A} (f : world -> X) (m : M A) (h : exn -> M A) :
  preserves f m -> (forall e, preserves f (h e)) -> preserves f (try_except m h).
Proof.
  intros Hm Hh w. unfold try_except. specialize (Hm w).
  destruct (m w) as [[e|a] w1]; simpl in *; [|exact Hm].
  rewrite Hh. exact Hm.
Qed.

Lemma preserves_for_each {X A S} (f : world -> X) (xs : list A) (body : S -> A -> M S) s :
  (forall s x, preserves f (body s x)) -> preserves f (for_each xs body s).
Proof.
  intros Hb. revert s. induction xs as [|x xs IH]; intros s; simpl.
  - apply preserves_ret.
  - apply preserves_bind; [apply Hb|]. intros s'. apply IH.
Qed.

Lemma preserves_if {X A} (f : world -> X) (b : bool) (m1 m2 : M A) :
  preserves f m1 -> preserves f m2 -> preserves f (if b then m1 else m2).
Proof. destruct b; auto. Qed.

Create HintDb frame.
#[local] Hint Resolve preserves_ret preserves_raise preserves_lift : frame.
#[local] Hint Extern 2 (preserves _ (bind _ _)) => apply preserves_bind; [|intros ?] : frame.
#[local] Hint Extern 2 (preserves _ (try_except _ _)) =>
  apply preserves_try_except; [|intros ?] : frame.
#[local] Hint Extern 2 (preserves _ (for_each _ _ _)) =>
  apply preserves_for_each; intros ? ? : frame.
#[local] Hint Extern 2 (preserves _ (if _ then _ else _)) => apply preserves_if : frame.

(** Logging, listing and reading change neither the working directory nor
    the clones made so far. *)
Lemma clone_events_snoc t ev :
  clone_events (t ++ [ev]) =
  match ev with
  | EvClone _ _ _ => (clone_events t ++ [ev])%list
  | _ => clone_events t
  end.
Proof.
  unfold clone_events. rewrite List.filter_app. destruct ev; simpl;
    rewrite ?app_nil_r; reflexivity.
Qed.

Lemma logger_static lvl msg : preserves static (logger lvl msg).
Proof. intros w. reflexivity. Qed.

Lemma click_echo_static msg err : preserves static (click_echo msg err).
Proof. intros w. reflexivity. Qed.

Lemma emit_static ev :
  match ev with EvClone _ _ _ => False | _ => True end ->
  preserves static (emit ev).
Proof.
  intros Hev w. unfold static, emit. simpl. rewrite clone_events_snoc.
  destruct ev; [destruct Hev| | | |]; reflexivity.
Qed.

Lemma os_path_exists_static p : preserves static (os_path_exists p).
Proof. intros w. reflexivity. Qed.

Lemma Repo_static ext p : preserves static (Repo ext p).
Proof. intros w. unfold Repo. repeat case_match; reflexivity. Qed.

#[local] Hint Resolve logger_static click_echo_static os_path_exists_static
  Repo_static : frame.
#[local] Hint Extern 1 (preserves static (emit _)) => apply emit_static; exact I : frame.

Lemma open_read_static p : preserves static (open_read p).
Proof.
  unfold open_read. apply preserves_bind; [auto with frame|]. intros _ w.
  repeat case_match; reflexivity.
Qed.

#[local] Hint Resolve open_read_static : frame.

Lemma extract_imports_static ext content language :
  preserves static (extract_imports ext content language).
Proof. unfold extract_imports. auto 10 with frame. Qed.

Lemma analyze_file_content_static ext p : preserves static (analyze_file_content ext p).
Proof.
  unfold analyze_file_content. pose proof extract_imports_static. auto 10 with frame.
Qed.

Lemma analyze_files_static ext walk : preserves static (analyze_files ext walk).
Proof.
  unfold analyze_files, analyze_filenames. pose proof analyze_file_content_static.
  apply preserves_for_each. intros files [[root dirs] names].
  auto 10 with frame.
Qed.

Lemma analyze_file_structure_static p : preserves static (analyze_file_structure p).
Proof.
  unfold analyze_file_structure. apply preserves_bind; [auto with frame|]. intros _ w.
  repeat case_match; reflexivity.
Qed.

Lemma os_walk_io_static p : preserves static (os_walk_io p).
Proof.
  unfold os_walk_io. apply preserves_bind; [auto with frame|]. intros _ w. reflexivity.
Qed.

(** ** What one analysed file looks like *)

Lemma extract_imports_result ext content language w :
  exists imports w', extract_imports ext content language w = (inr imports, w').
Proof.
  unfold extract_imports, try_except, bind, lift, logger, ret.
  destruct (String.eqb language "python"); [|eauto].
  destruct (ast_parse ext content); eauto.
Qed.

Lemma analyze_file_content_ok ext file_path w fc w' :
  analyze_file_content ext file_path w = (inr fc, w') ->
  path fc = path_str file_path /\
  language fc = detect_language (Path_suffix (List.last file_path EmptyString)) /\
  resolve (cwd w) file_path = Some (File (Text (content fc))).
Proof.
  unfold analyze_file_content. rewrite run_bind.
  destruct (open_read file_path w) as [[e|content] w1] eqn:Hopen; [discriminate|].
  rewrite run_bind.
  destruct (extract_imports_result ext content
              (detect_language (Path_suffix (List.last file_path EmptyString))) w1)
    as (imports & w2 & ->).
  unfold ret. intros [= <- <-]. simpl. repeat split.
  unfold open_read, bind, emit in Hopen. simpl in Hopen.
  repeat case_match; simplify_eq. reflexivity.
Qed.

Lemma dict_get_In {V} (d : PyDict.dict V) k v :
  PyDict.get d k = Some v -> In (k, v) d.
Proof.
  induction d as [|[k0 v0] d IH]; simpl; [discriminate|].
  destruct (String.eqb k0 k) eqn:E.
  - apply String.eqb_eq in E. intros [= ->]. left. congruence.
  - auto.
Qed.

Lemma dict_In_get {V} (d : PyDict.dict V) k v :
  NoDup (PyDict.keys d) -> In (k, v) d -> PyDict.get d k = Some v.
Proof.
  induction d as [|[k0 v0] d IH]; simpl; [tauto|].
  intros Hnd [H|H].
  - injection H as -> ->. rewrite String.eqb_refl. reflexivity.
  - apply NoDup_cons in Hnd as [Hk0 Hnd]. destruct (String.eqb k0 k) eqn:E.
    + apply String.eqb_eq in E. subst k0. exfalso. apply Hk0.
      apply list_elem_of_In. apply (in_map fst) in H. exact H.
    + auto.
Qed.

Lemma language_map_keys_NoDup : NoDup (PyDict.keys language_map).
Proof. apply (bool_decide_unpack (NoDup (PyDict.keys language_map))). vm_compute. exact I. Qed.

Lemma detect_language_label file_extension :
  In (detect_language file_extension) language_labels.
Proof.
  unfold detect_language, PyDict.get_default.
  destruct (PyDict.get language_map (PyStr.lower file_extension)) as [lang|] eqn:E.
  - apply dict_get_In in E. unfold language_map, language_labels in *.
    repeat (destruct E as [E|E]; [injection E as _ <-; simpl; auto 10|]).
    destruct E.
  - simpl. auto 10.
Qed.

(** C1. For the source text ["import os"], newline, ["from a.b import c"],
    whose syntax tree is a module of one [Import] of [os] and one [ImportFrom]
    of [c] from [a.b], [extract_imports] with language ["python"] returns
    exactly [["os"; "a.b.c"]], and logs nothing. *)
Theorem C1_extract_imports_two_statements (ext : externals) (w : world) :
  ast_parse ext ("import os" +:+ PyStr.newline +:+ "from a.b import c") =
    Some (Other [Import [mkAlias "os" None];
                 ImportFrom (Some "a.b") [mkAlias "c" None] 0]) ->
  extract_imports ext ("import os" +:+ PyStr.newline +:+ "from a.b import c") "python" w
  = (inr ["os"; "a.b.c"], w).
Proof.
  intros Hparse. unfold extract_imports, try_except, bind, lift, ret.
  rewrite Hparse. simpl String.eqb. cbv iota.
  rewrite collect_imports_module by reflexivity. reflexivity.
Qed.

Lemma C1_extract_imports_two_statements_witness :
  extract_imports Sample.externals
    ("import os" +:+ PyStr.newline +:+ "from a.b import c") "python" Sample.fresh
  = (inr ["os"; "a.b.c"], Sample.fresh).
Proof.
  apply (C1_extract_imports_two_statements Sample.externals Sample.fresh).
  vm_compute. reflexivity.
Defined.

(** A statement-by-statement reading: a module made of import statements
    yields, in source order, the module name of each plain import and
    [module.name] for each name of a from-import. *)
Lemma extract_imports_import_statements ext content body w :
  ast_parse ext content = Some (Other body) ->
  forallb is_import body = true ->
  extract_imports ext content "python" w = (inr (flat_map node_imports body), w).
Proof.
  intros Hparse Hb. unfold extract_imports, try_except, bind, lift, ret.
  rewrite Hparse. simpl String.eqb. cbv iota.
  rewrite collect_imports_module by exact Hb. reflexivity.
Qed.

(** C2 (amended). [detect_language] looks the lower-cased extension up in the
    six-entry table: it returns the table's label when the lower-cased
    extension is a key and ["unknown"] otherwise; [".py"] gives ["python"],
    [".xyz"] gives ["unknown"]; the result, and so the language of every
    analysed file, is one of the table's values or ["unknown"]. *)
Theorem C2_detect_language_lowercased_lookup (file_extension : string) :
  (forall lang, In (PyStr.lower file_extension, lang) language_map ->
                detect_language file_extension = lang) /\
  (~ In (PyStr.lower file_extension) [".py"; ".js"; ".ts"; ".java"; ".cpp"; ".go"] ->
   detect_language file_extension = "unknown") /\
  detect_language ".py" = "python" /\
  detect_language ".xyz" = "unknown" /\
  In (detect_language file_extension)
     ["python"; "javascript"; "typescript"; "java"; "cpp"; "go"; "unknown"] /\
  (forall ext file_path w fc w',
      analyze_file_content ext file_path w = (inr fc, w') ->
      In (language fc)
         ["python"; "javascript"; "typescript"; "java"; "cpp"; "go"; "unknown"]).
Proof.
  split; [|split; [|split; [|split; [|split]]]].
  - intros lang Hin. unfold detect_language, PyDict.get_default.
    rewrite (dict_In_get language_map _ lang); [reflexivity| |exact Hin].
    apply language_map_keys_NoDup.
  - intros Hnot. unfold detect_language, PyDict.get_default.
    destruct (PyDict.get language_map (PyStr.lower file_extension)) eqn:E; [|reflexivity].
    exfalso. apply Hnot. apply dict_get_In in E. apply (in_map fst) in E. exact E.
  - reflexivity.
  - reflexivity.
  - apply detect_language_label.
  - intros ext file_path w fc w' Hrun.
    apply analyze_file_content_ok in Hrun as (_ & -> & _).
    apply detect_language_label.
Qed.

Lemma C2_detect_language_lowercased_lookup_witness :
  detect_language ".Java" = "java" /\ detect_language ".rs" = "unknown".
Proof.
  split.
  - apply (proj1 (C2_detect_language_lowercased_lookup ".Java") "java").
    simpl. auto 10.
  - apply (proj1 (proj2 (C2_detect_language_lowercased_lookup ".rs"))).
    simpl. intuition discriminate.
Defined.

(** The statement as written fails: [".PY"] is not a key of the table, yet it
    is classified ["python"], not ["unknown"]. *)
Lemma C2_uppercase_extension_counterexample :
  ~ In ".PY" (PyDict.keys language_map) /\ detect_language ".PY" <> "unknown".
Proof.
  split.
  - simpl. intuition discriminate.
  - vm_compute. discriminate.
Qed.

Lemma last_os_path_join root filename :
  List.last (os_path_join root filename) EmptyString = filename.
Proof. unfold os_path_join. apply last_last. Qed.

(** C5. When [ast.parse] fails on the text of a Python file,
    [extract_imports] returns the empty list and logs one warning instead of
    raising: the log grows by exactly the record
    [(WARNING, "Could not parse Python imports")] and nothing else changes;
    the file still gets its record, with no imports, and the loop of
    [analyze_repository] goes on with the remaining file names. *)
Theorem C5_parse_failure_gives_no_imports
    (ext : externals) (root : list string) (filename : string)
    (rest : list string) (files : list FileContext) (content : string) (w : world) :
  ast_parse ext content = None ->
  resolve (cwd w) (os_path_join root filename) = Some (File (Text content)) ->
  PyStr.endswith_any filename source_suffixes = true ->
  detect_language (Path_suffix filename) = "python" ->
  let warned w := snd (logger WARNING "Could not parse Python imports" w) in
  let file_path := os_path_join root filename in
  extract_imports ext content "python" w = (inr [], warned w) /\
  analyze_filenames ext root (filename :: rest) files w =
  analyze_filenames ext root rest
    (files ++ [mkFileContext (path_str file_path) content "python" [] []
                 "Source code file in python"])
    (warned (snd (emit (EvRead (path_str file_path)) w))) /\
  extract_imports ext content "python" w
  = (inr [],
     mkWorld (environ w) (cwd w)
       (log w ++ [(WARNING, "Could not parse Python imports")])
       (console w) (trace w)) /\
  log (snd (extract_imports ext content "python" w))
  = (log w ++ [(WARNING, "Could not parse Python imports")])%list /\
  analyze_filenames ext root (filename :: rest) files w =
  analyze_filenames ext root rest
    (files ++ [mkFileContext (path_str file_path) content "python" [] []
                 "Source code file in python"])
    (mkWorld (environ w) (cwd w)
       (log w ++ [(WARNING, "Could not parse Python imports")])
       (console w) (trace w ++ [EvRead (path_str file_path)])).
Proof.
  intros Hparse Hres Hsel Hlang warned file_path.
  assert (Hx : extract_imports ext content "python" w = (inr [], warned w)).
  { unfold extract_imports, try_except, bind, lift, ret. rewrite Hparse. reflexivity. }
  assert (Hloop :
    analyze_filenames ext root (filename :: rest) files w =
    analyze_filenames ext root rest
      (files ++ [mkFileContext (path_str file_path) content "python" [] []
                   "Source code file in python"])
      (warned (snd (emit (EvRead (path_str file_path)) w)))).
  { unfold analyze_filenames. cbn [for_each]. rewrite run_bind, Hsel, run_bind.
    unfold analyze_file_content. rewrite run_bind.
    unfold open_read at 1. rewrite run_bind. cbn [emit cwd].
    subst file_path. rewrite Hres. rewrite run_bind.
    rewrite last_os_path_join, Hlang.
    unfold extract_imports, try_except, bind, lift, ret. rewrite Hparse.
    reflexivity. }
  split; [exact Hx|]. split; [exact Hloop|]. split; [|split].
  - rewrite Hx. reflexivity.
  - rewrite Hx. reflexivity.
  - rewrite Hloop. reflexivity.
Qed.

Lemma C5_parse_failure_gives_no_imports_witness :
  extract_imports Sample.externals "import" "python" Sample.cloned
  = (inr [], snd (logger WARNING "Could not parse Python imports" Sample.cloned)) /\
  log (snd (extract_imports Sample.externals "import" "python" Sample.cloned))
  = [(WARNING, "Could not parse Python imports")] /\
  fst (analyze_filenames Sample.externals ["temp_repo_main"; "pkg"]
         ["broken.py"; "util.js"] [] Sample.cloned)
  = inr [mkFileContext "temp_repo_main/pkg/broken.py" "import" "python" [] []
           "Source code file in python";
         mkFileContext "temp_repo_main/pkg/util.js" "export {}" "javascript" [] []
           "Source code file in javascript"] /\
  log (snd (analyze_filenames Sample.externals ["temp_repo_main"; "pkg"]
              ["broken.py"; "util.js"] [] Sample.cloned))
  = [(WARNING, "Could not parse Python imports")].
Proof.
  destruct (C5_parse_failure_gives_no_imports Sample.externals
              ["temp_repo_main"; "pkg"] "broken.py" ["util.js"] [] "import" Sample.cloned)
    as (H1 & H2 & _ & H4 & H5); try (vm_compute; reflexivity).
  split; [exact H1|]. split; [exact H4|]. split.
  - rewrite H2. vm_compute. reflexivity.
  - rewrite H5. vm_compute. reflexivity.
Defined.

(** C6. Without [GITHUB_TOKEN] in the environment the command raises the
    [ClickException] at once: the world is left exactly as it was, so nothing
    was cloned, listed, read, written or logged. *)
Theorem C6_missing_token_fails_first
    (ext : externals) (repo_url branch output : string) (w : world) :
  environ w !! "GITHUB_TOKEN" = None ->
  analyze_repo ext repo_url branch output w
  = (inl (ClickException "Please set the GITHUB_TOKEN environment variable"), w).
Proof.
  intros Henv. unfold analyze_repo, os_getenv. rewrite run_bind, Henv. reflexivity.
Qed.

Lemma C6_missing_token_fails_first_witness :
  analyze_repo Sample.externals Sample.url "main" "repo_context.json" Sample.no_token
  = (inl (ClickException "Please set the GITHUB_TOKEN environment variable"),
     Sample.no_token).
Proof.
  apply C6_missing_token_fails_first. vm_compute. reflexivity.
Defined.

(** An empty token counts as absent ([not github_token]). *)
Example analyze_repo_empty_token :
  fst (analyze_repo Sample.externals Sample.url "main" "repo_context.json"
         (mkWorld {[ "GITHUB_TOKEN" := "" ]} ∅ [] [] []))
  = inl (ClickException "Please set the GITHUB_TOKEN environment variable").
Proof. reflexivity. Qed.

(** With a token the same run does work: the credential check is what stops
    the run above. *)
Example analyze_repo_with_token :
  let '(r, w) := analyze_repo Sample.externals Sample.url "main" "repo_context.json"
                   Sample.fresh in
  r = inr tt /\
  clone_events (trace w) = [EvClone Sample.url "main" "temp_repo_main"] /\
  console w = [(false, "Analysis completed. Context saved to repo_context.json")].
Proof. vm_compute. repeat split. Qed.

(** ** The tree walker *)

Lemma entry_nested_ind (P : entry -> Prop) :
  (forall data, P (File data)) ->
  P Special ->
  (forall items, Forall (fun it => P (snd it)) items -> P (Dir items)) ->
  forall e, P e.
Proof.
  intros HF HS HD. fix IH 1. intros [data|items|].
  - apply HF.
  - apply HD. induction items as [|[name item] items IHitems]; constructor.
    + apply IH.
    + exact IHitems.
  - apply HS.
Qed.

Lemma build_structure_Dir name items cur :
  build_structure name (Dir items) cur = build_items items cur.
Proof. reflexivity. Qed.

Lemma entries_where_Dir keep items :
  entries_where keep (Dir items) = entries_of keep items.
Proof. reflexivity. Qed.

Lemma walkable_Dir items :
  walkable (Dir items) = distinct (map fst items) && walkable_items items.
Proof. reflexivity. Qed.

Lemma existsb_eqb_false x (l : list string) :
  existsb (String.eqb x) l = false -> ~ In x l.
Proof.
  intros H Hin. assert (existsb (String.eqb x) l = true); [|congruence].
  apply existsb_exists. exists x. split; [exact Hin|apply String.eqb_refl].
Qed.

(** The loop of [build_structure] over a listable directory appends the
    visible items, in listing order, to the dictionary it was given. *)
Lemma build_items_visible items :
  Forall (fun it => walkable (snd it) = true ->
                    forall name, build_structure name (snd it) []
                                 = inr (visible_entries (snd it))) items ->
  forall cur,
    distinct (map fst items) = true ->
    walkable_items items = true ->
    (forall n, In n (map fst items) -> ~ In n (PyDict.keys cur)) ->
    build_items items cur
    = inr (cur ++ entries_of (fun name => negb (skipped name)) items)%list.
Proof.
  induction 1 as [|[name item] items Hitem _ IH]; intros cur Hd Hw Hfresh.
  - simpl. rewrite app_nil_r. reflexivity.
  - cbn [map fst distinct] in Hd. apply andb_true_iff in Hd as [Hname Hd].
    apply negb_true_iff, existsb_eqb_false in Hname.
    cbn [walkable_items] in Hw. apply andb_true_iff in Hw as [Hitem_ok Hw].
    cbn [build_items entries_of]. fold build_items. fold (entries_of (fun name => negb (skipped name))).
    destruct (skipped name) eqn:Hskip; cbn [negb].
    + apply IH; [exact Hd|exact Hw|]. intros n Hn. apply Hfresh. right. exact Hn.
    + assert (Hset : forall s, PyDict.set cur name s = (cur ++ [(name, s)])%list).
      { intros s. apply dict_set_fresh. apply Hfresh. left. reflexivity. }
      assert (Hnext : forall s n, In n (map fst items) ->
                                  ~ In n (PyDict.keys (cur ++ [(name, s)])%list)).
      { intros s n Hn. unfold PyDict.keys. rewrite map_app, in_app_iff. simpl.
        intros [Hc|[->|[]]]; [|exact (Hname Hn)].
        apply (Hfresh n); [right; exact Hn|exact Hc]. }
      simpl in Hitem_ok, Hitem.
      destruct item as [data|sub|].
      * rewrite Hset, IH; [|exact Hd|exact Hw|apply Hnext].
        rewrite <- app_assoc. reflexivity.
      * rewrite (Hitem Hitem_ok name), Hset, IH; [|exact Hd|exact Hw|apply Hnext].
        rewrite <- app_assoc. reflexivity.
      * discriminate.
Qed.

Lemma build_structure_visible e :
  walkable e = true ->
  forall name, build_structure name e [] = inr (visible_entries e).
Proof.
  induction e as [data| |items IH] using entry_nested_ind; try discriminate.
  intros Hw name. rewrite walkable_Dir in Hw. apply andb_true_iff in Hw as [Hd Hw].
  rewrite build_structure_Dir. unfold visible_entries. rewrite entries_where_Dir.
  rewrite (build_items_visible items IH []); auto.
Qed.

Lemma build_items_all_skipped items cur :
  forallb (fun it => skipped (fst it)) items = true ->
  build_items items cur = inr cur.
Proof.
  induction items as [|[name item] items IH]; intros H; [reflexivity|].
  simpl in H. apply andb_true_iff in H as [H1 H2].
  cbn [build_items]. fold build_items. rewrite H1. apply IH. exact H2.
Qed.

Lemma entries_of_In keep items name s :
  In (name, s) (entries_of keep items) <->
  exists item, In (name, item) items /\ keep name = true /\
               s = match item with
                   | File _ => Leaf
                   | _ => Sub (entries_where keep item)
                   end.
Proof.
  induction items as [|[n it] items IH].
  - simpl. split; [tauto|]. intros (? & [] & _).
  - cbn [entries_of]. fold (entries_of keep). destruct (keep n) eqn:Hk.
    + simpl. rewrite IH. split.
      * intros [Heq|(item & Hin & Hkeep & Hs)].
        -- injection Heq as Hn Hs. subst n. exists it. auto.
        -- exists item. auto.
      * intros (item & [Heq|Hin] & Hkeep & Hs).
        -- injection Heq as Hn Hit. subst n it. left. f_equal. auto.
        -- right. exists item. auto.
    + rewrite IH. split.
      * intros (item & Hin & Hkeep & Hs). exists item. simpl. auto.
      * intros (item & [Heq|Hin] & Hkeep & Hs).
        -- injection Heq as Hn Hit. congruence.
        -- exists item. auto.
Qed.

(** C3 (amended). For a directory tree the walker can list, the structure
    mapping holds exactly the entries that are neither hidden nor named
    [__pycache__]: a file maps to the leaf marker and a directory to the
    mapping of its own such entries.  For a tree whose entries are all hidden
    the mapping is empty. *)
Theorem C3_structure_holds_the_visible_entries
    (local_path : string) (items : list (string * entry)) (w : world) :
  cwd w !! local_path = Some (Dir items) ->
  (walkable (Dir items) = true ->
   fst (analyze_file_structure local_path w) = inr (visible_entries (Dir items))) /\
  (forall name s,
      In (name, s) (visible_entries (Dir items)) <->
      exists item, In (name, item) items /\
                   hidden name = false /\ name <> "__pycache__" /\
                   s = match item with
                       | File _ => Leaf
                       | _ => Sub (visible_entries item)
                       end) /\
  (forallb (fun it => hidden (fst it)) items = true ->
   fst (analyze_file_structure local_path w) = inr []).
Proof.
  intros Hcwd.
  assert (Hrun : fst (analyze_file_structure local_path w)
                 = build_structure local_path (Dir items) []).
  { unfold analyze_file_structure. rewrite run_bind. cbn [emit cwd]. rewrite Hcwd.
    reflexivity. }
  split; [|split].
  - intros Hw. rewrite Hrun. apply build_structure_visible. exact Hw.
  - intros name s. unfold visible_entries. rewrite entries_where_Dir, entries_of_In.
    split; intros (item & Hin & Hkeep & Hs); exists item; (split; [exact Hin|]).
    + apply negb_true_iff in Hkeep. unfold skipped in Hkeep.
      apply orb_false_iff in Hkeep as [Hh Hp]. apply String.eqb_neq in Hp. auto.
    + destruct Hs as [Hp Hs']. split; [|exact Hs'].
      apply negb_true_iff. unfold skipped. apply orb_false_iff.
      split; [exact Hkeep|]. apply String.eqb_neq. exact Hp.
  - intros Hh. rewrite Hrun, build_structure_Dir. apply build_items_all_skipped.
    rewrite forallb_forall in *. intros it Hit. unfold skipped.
    unfold hidden in Hh. rewrite (Hh it Hit). reflexivity.
Qed.

Lemma C3_structure_holds_the_visible_entries_witness :
  fst (analyze_file_structure "temp_repo_main" Sample.cloned)
  = inr [("README.md", Leaf); ("app.py", Leaf);
         ("pkg", Sub [("util.js", Leaf); ("broken.py", Leaf)]);
         ("native.cpp", Leaf)] /\
  fst (analyze_file_structure "temp_repo_main"
         (set_cwd (insert "temp_repo_main" (Dir [(".git", Dir []); (".env", File Binary)]))
                  Sample.cloned))
  = inr [].
Proof.
  split.
  - rewrite (proj1 (C3_structure_holds_the_visible_entries
                      "temp_repo_main" Sample.repo_tree Sample.cloned eq_refl) eq_refl).
    reflexivity.
  - apply (C3_structure_holds_the_visible_entries "temp_repo_main"
             [(".git", Dir []); (".env", File Binary)]); reflexivity.
Defined.

(** The statement as written fails: a [__pycache__] directory is not hidden,
    is present at walk time, and is left out of the mapping. *)
Lemma C3_pycache_counterexample :
  let tree := Dir [("__pycache__", Dir [("m.cpython-311.pyc", File Binary)]);
                   ("m.py", File (Text "pass"))] in
  let w := mkWorld ∅ {[ "repo" := tree ]} [] [] [] in
  walkable tree = true /\
  non_hidden_entries tree
  = [("__pycache__", Sub [("m.cpython-311.pyc", Leaf)]); ("m.py", Leaf)] /\
  fst (analyze_file_structure "repo" w) = inr [("m.py", Leaf)] /\
  fst (analyze_file_structure "repo" w) <> inr (non_hidden_entries tree).
Proof. vm_compute. repeat split. discriminate. Qed.

(** An entry that is neither a file nor a directory stops the walk. *)
Example analyze_file_structure_special :
  fst (analyze_file_structure "repo"
         (mkWorld ∅ {[ "repo" := Dir [("a.py", File (Text "pass")); ("sock", Special)] ]}
                  [] [] []))
  = inl (NotADirectoryError "sock").
Proof. vm_compute. reflexivity. Qed.

(** ** The aggregators *)

Lemma count_languages_tally files :
  count_languages files = tally (map language files) [].
Proof.
  unfold count_languages, tally. generalize (@nil (string * nat)).
  induction files as [|f files IH]; intros d; [reflexivity|]. simpl. apply IH.
Qed.

Lemma aggregate_dependencies_tally files :
  aggregate_dependencies files = tally (flat_map dependencies files) [].
Proof.
  unfold aggregate_dependencies, tally. generalize (@nil (string * nat)).
  induction files as [|f files IH]; intros d; [reflexivity|].
  simpl. rewrite fold_left_app. apply IH.
Qed.

Lemma get_default_set (d : PyDict.dict nat) k v k' :
  PyDict.get_default (PyDict.set d k v) k' 0 =
  if String.eqb k k' then v else PyDict.get_default d k' 0.
Proof.
  unfold PyDict.get_default. rewrite dict_get_set.
  destruct (String.eqb k k'); reflexivity.
Qed.

Lemma list_sum_cons x l : list_sum (x :: l) = x + list_sum l.
Proof. reflexivity. Qed.

Lemma values_set_sum (d : PyDict.dict nat) k :
  list_sum (PyDict.values (PyDict.set d k (PyDict.get_default d k 0 + 1)))
  = list_sum (PyDict.values d) + 1.
Proof.
  unfold PyDict.get_default, PyDict.values.
  induction d as [|[k0 v0] d IH]; [reflexivity|].
  cbn [PyDict.set PyDict.get]. destruct (String.eqb k0 k); cbn [map snd].
  - rewrite !list_sum_cons. lia.
  - rewrite !list_sum_cons, IH. lia.
Qed.

Section Tally.

Variable k : string.

Lemma tally_count ks : forall d,
  PyDict.get_default (tally ks d) k 0
  = PyDict.get_default d k 0 + count_occ string_dec ks k.
Proof.
  induction ks as [|k0 ks IH]; intros d; simpl; [lia|].
  unfold tally in *. simpl. rewrite IH, get_default_set.
  destruct (string_dec k0 k) as [->|Hne].
  - rewrite String.eqb_refl. lia.
  - apply String.eqb_neq in Hne. rewrite Hne. lia.
Qed.

Lemma tally_keys ks : forall d,
  In k (PyDict.keys (tally ks d)) <-> In k (PyDict.keys d) \/ In k ks.
Proof.
  induction ks as [|k0 ks IH]; intros d; simpl; [tauto|].
  unfold tally in *. simpl. rewrite IH, dict_keys_set_In. intuition congruence.
Qed.

End Tally.

Lemma tally_NoDup ks : forall d,
  NoDup (PyDict.keys d) -> NoDup (PyDict.keys (tally ks d)).
Proof.
  induction ks as [|k0 ks IH]; intros d H; [exact H|].
  unfold tally in *. simpl. apply IH, dict_keys_set_NoDup, H.
Qed.

Lemma tally_sum ks : forall d,
  list_sum (PyDict.values (tally ks d)) = list_sum (PyDict.values d) + length ks.
Proof.
  induction ks as [|k0 ks IH]; intros d; simpl; [lia|].
  unfold tally in *. simpl. rewrite IH, values_set_sum. lia.
Qed.

Lemma file_count_count_occ files lang :
  file_count files lang = count_occ string_dec (map language files) lang.
Proof.
  unfold file_count. induction files as [|f files IH]; [reflexivity|].
  simpl. destruct (string_dec (language f) lang) as [->|Hne].
  - rewrite String.eqb_refl. simpl. rewrite IH. reflexivity.
  - apply String.eqb_neq in Hne. rewrite Hne. exact IH.
Qed.

(** C8. The counts of the dependency mapping add up to the total length of
    the files' dependency lists, and its keys are exactly the names that
    occur in some file's list; each name is a key once, with the number of
    its occurrences as its count. *)
Theorem C8_dependency_counts_add_up (files : list FileContext) :
  list_sum (PyDict.values (aggregate_dependencies files))
  = list_sum (map (fun f => length (dependencies f)) files) /\
  (forall dep, In dep (PyDict.keys (aggregate_dependencies files)) <->
               exists f, In f files /\ In dep (dependencies f)) /\
  NoDup (PyDict.keys (aggregate_dependencies files)) /\
  (forall dep, PyDict.get_default (aggregate_dependencies files) dep 0
               = list_sum (map (fun f => count_occ string_dec (dependencies f) dep) files)).
Proof.
  rewrite aggregate_dependencies_tally. repeat split.
  - rewrite tally_sum. simpl. induction files as [|f files IH]; [reflexivity|].
    simpl. rewrite length_app, IH. reflexivity.
  - rewrite tally_keys, in_flat_map. simpl. tauto.
  - rewrite tally_keys, in_flat_map. simpl. tauto.
  - apply tally_NoDup. constructor.
  - intros dep. rewrite tally_count. simpl.
    induction files as [|f files IH]; [reflexivity|].
    simpl. rewrite count_occ_app, IH. reflexivity.
Qed.

(** ** The ranking *)

Lemma insert_desc_perm x l : Permutation (insert_desc x l) (x :: l).
Proof.
  induction l as [|y l IH]; simpl; [reflexivity|].
  destruct (snd y <=? snd x)%nat; [reflexivity|].
  rewrite IH. apply perm_swap.
Qed.

Lemma sorted_by_count_desc_perm l : Permutation (sorted_by_count_desc l) l.
Proof.
  induction l as [|x l IH]; simpl; [reflexivity|].
  rewrite insert_desc_perm, IH. reflexivity.
Qed.

Lemma insert_desc_sorted x l :
  StronglySorted (fun a b : string * nat => snd b <= snd a) l ->
  StronglySorted (fun a b : string * nat => snd b <= snd a) (insert_desc x l).
Proof.
  induction 1 as [|y l Hl IH Hy]; simpl.
  - repeat constructor.
  - destruct (snd y <=? snd x)%nat eqn:E.
    + apply Nat.leb_le in E. constructor; [constructor; assumption|].
      constructor; [exact E|].
      rewrite List.Forall_forall in *. intros z Hz. specialize (Hy z Hz). lia.
    + apply Nat.leb_gt in E. constructor; [exact IH|].
      rewrite List.Forall_forall in *. intros z Hz.
      apply (Permutation_in _ (insert_desc_perm x l)) in Hz.
      destruct Hz as [<-|Hz]; [lia|auto].
Qed.

Lemma sorted_by_count_desc_sorted l :
  StronglySorted (fun a b : string * nat => snd b <= snd a) (sorted_by_count_desc l).
Proof.
  induction l as [|x l IH]; simpl; [constructor|]. apply insert_desc_sorted, IH.
Qed.

Lemma StronglySorted_lookup {A} (R : A -> A -> Prop) (l : list A) i j a b :
  StronglySorted R l -> l !! i = Some a -> l !! j = Some b -> i < j -> R a b.
Proof.
  intros Hs. revert i j. induction Hs as [|x l Hl IH Hx]; intros i j Hi Hj Hij.
  - discriminate.
  - destruct j as [|j]; [lia|]. destruct i as [|i]; simpl in *.
    + injection Hi as ->. rewrite List.Forall_forall in Hx. apply Hx.
      apply list_elem_of_In. eapply list_elem_of_lookup_2. exact Hj.
    + apply (IH i j); auto. lia.
Qed.

Lemma count_languages_item files lang c :
  In (lang, c) (count_languages files) -> c = file_count files lang.
Proof.
  intros Hin. rewrite count_languages_tally in Hin.
  apply dict_In_get in Hin; [|apply tally_NoDup; constructor].
  pose proof (tally_count lang (map language files) []) as Hc.
  unfold PyDict.get_default in Hc at 1. rewrite Hin in Hc.
  rewrite file_count_count_occ. simpl in Hc. exact Hc.
Qed.

(** C4. The ranked language list is in descending order of per-language file
    count: counts never increase along the list, so a language with strictly
    more files comes strictly earlier; nothing is said about languages with
    equal counts.  The list names each language of the files once. *)
Theorem C4_main_languages_descend_by_count (files : list FileContext) :
  StronglySorted (fun a b => file_count files b <= file_count files a)
                 (detect_main_languages files) /\
  (forall i j a b,
      detect_main_languages files !! i = Some a ->
      detect_main_languages files !! j = Some b ->
      file_count files b < file_count files a -> i < j) /\
  NoDup (detect_main_languages files) /\
  (forall lang, In lang (detect_main_languages files) <->
                exists f, In f files /\ language f = lang).
Proof.
  assert (Hperm : Permutation (detect_main_languages files)
                              (PyDict.keys (count_languages files))).
  { unfold detect_main_languages, PyDict.items, PyDict.keys.
    apply Permutation_map, sorted_by_count_desc_perm. }
  assert (Hsorted : StronglySorted (fun a b => file_count files b <= file_count files a)
                                   (detect_main_languages files)).
  { unfold detect_main_languages, PyDict.items.
    pose proof (sorted_by_count_desc_sorted (count_languages files)) as Hs.
    assert (Hitems : forall p, In p (sorted_by_count_desc (count_languages files)) ->
                               snd p = file_count files (fst p)).
    { intros [lang c] Hp. apply (Permutation_in _ (sorted_by_count_desc_perm _)) in Hp.
      apply count_languages_item in Hp. exact Hp. }
    induction Hs as [|p l Hl IH Hp]; simpl; constructor.
    - apply IH. intros q Hq. apply Hitems. right. exact Hq.
    - rewrite List.Forall_forall in *. intros lang Hlang.
      apply in_map_iff in Hlang as (q & <- & Hq).
      rewrite <- (Hitems p), <- (Hitems q); [apply Hp, Hq|right; exact Hq|left; reflexivity]. }
  split; [exact Hsorted|]. split; [|split].
  - intros i j a b Hi Hj Hlt.
    destruct (Nat.lt_trichotomy i j) as [Hij|[->|Hji]]; [exact Hij| |].
    + rewrite Hi in Hj. injection Hj as ->. lia.
    + pose proof (StronglySorted_lookup _ _ j i b a Hsorted Hj Hi Hji). simpl in *. lia.
  - rewrite Hperm, count_languages_tally. apply tally_NoDup. constructor.
  - intros lang. rewrite Hperm, count_languages_tally, tally_keys, in_map_iff.
    simpl. split.
    + intros [[]|(f & Hf & Hin)]. exists f. auto.
    + intros (f & Hin & Hf). right. exists f. auto.
Qed.

Lemma C4_main_languages_descend_by_count_witness :
  let files := [mkFileContext "a.js" "" "javascript" [] [] "";
                mkFileContext "b.py" "" "python" [] [] "";
                mkFileContext "c.py" "" "python" [] [] "";
                mkFileContext "d.go" "" "go" [] [] ""] in
  detect_main_languages files = ["python"; "javascript"; "go"] /\ 0 < 1.
Proof.
  intros files. split; [reflexivity|].
  apply (proj1 (proj2 (C4_main_languages_descend_by_count files)) 0 1 "python" "javascript");
    vm_compute; [reflexivity|reflexivity|lia].
Defined.

(** Equal counts: both orders below are descending; the stable sort keeps the
    order of first appearance. *)
Example detect_main_languages_tie :
  detect_main_languages [mkFileContext "a.js" "" "javascript" [] [] "";
                         mkFileContext "b.py" "" "python" [] [] ""]
  = ["javascript"; "python"] /\
  detect_main_languages [mkFileContext "b.py" "" "python" [] [] "";
                         mkFileContext "a.js" "" "javascript" [] [] ""]
  = ["python"; "javascript"].
Proof. split; reflexivity. Qed.

(** ** The run as a whole *)

Lemma bind_ok {A B} (m : M A) (k : A -> M B) w b w' :
  bind m k w = (inr b, w') ->
  exists a w1, m w = (inr a, w1) /\ k a w1 = (inr b, w').
Proof.
  rewrite run_bind. destruct (m w) as [[e|a] w1]; [discriminate|]. eauto.
Qed.

Lemma try_finally_ok {A} (body : M A) cleanup w a w' :
  try_finally body cleanup w = (inr a, w') ->
  exists w1, body w = (inr a, w1) /\ cleanup w1 = (inr tt, w').
Proof.
  unfold try_finally. destruct (body w) as [r w1].
  destruct (cleanup w1) as [[e|[]] w2] eqn:Hc; [discriminate|].
  intros [= -> ->]. eauto.
Qed.

Lemma try_finally_snd {A} (body : M A) cleanup w :
  snd (try_finally body cleanup w) = snd (cleanup (snd (body w))).
Proof.
  unfold try_finally. destruct (body w) as [r w1]. simpl.
  destruct (cleanup w1) as [[e|u] w2]; reflexivity.
Qed.

Lemma preserves_after {X A B} (f : world -> X) (m : M A) (k : A -> M B) w :
  (forall a, preserves f (k a)) -> f (snd (bind m k w)) = f (snd (m w)).
Proof.
  intros Hk. rewrite run_bind. destruct (m w) as [[e|a] w1]; [reflexivity|]. apply Hk.
Qed.

Lemma for_each_invariant {A S} (I : S -> Prop) (body : S -> A -> M S) :
  (forall s x w s' w', I s -> body s x w = (inr s', w') -> I s') ->
  forall xs s w s' w', I s -> for_each xs body s w = (inr s', w') -> I s'.
Proof.
  intros Hbody. induction xs as [|x xs IH]; intros s w s' w' Hs Hrun.
  - injection Hrun as <- _. exact Hs.
  - simpl in Hrun. apply bind_ok in Hrun as (s1 & w1 & H1 & H2).
    eapply IH; [|exact H2]. eapply Hbody; eauto.
Qed.

(** Every record made by the two loops comes from a file name with one of the
    five suffixes, and is classified by the suffix of that name. *)
Lemma analyze_files_records ext walk w files w' :
  analyze_files ext walk w = (inr files, w') ->
  Forall (fun fc => exists root filename,
              PyStr.endswith_any filename source_suffixes = true /\
              path fc = path_str (os_path_join root filename) /\
              language fc = detect_language (Path_suffix filename)) files.
Proof.
  unfold analyze_files. apply for_each_invariant; [|constructor].
  intros files0 [[root dirs] names] w0 files1 w1 Hfiles0.
  unfold analyze_filenames. apply for_each_invariant; [|exact Hfiles0].
  clear. intros files filename w files' w' Hfiles.
  destruct (PyStr.endswith_any filename source_suffixes) eqn:Hsel.
  - intros Hrun. apply bind_ok in Hrun as (fc & w1 & Hfc & Hret).
    injection Hret as <- _. apply Forall_app. split; [exact Hfiles|].
    constructor; [|constructor].
    apply analyze_file_content_ok in Hfc as (Hp & Hl & _).
    rewrite last_os_path_join in Hl. exists root, filename. auto.
  - intros [= <- _]. exact Hfiles.
Qed.

Lemma analyze_repository_files ext repo_url branch w ctx w' :
  analyze_repository ext repo_url branch w = (inr ctx, w') ->
  exists walk w1 w2, analyze_files ext walk w1 = (inr (files ctx), w2).
Proof.
  unfold analyze_repository. intros Hrun.
  apply try_finally_ok in Hrun as (w1 & Hbody & _).
  apply bind_ok in Hbody as (_ & w2 & _ & Hbody).
  apply bind_ok in Hbody as (structure & w3 & _ & Hbody).
  apply bind_ok in Hbody as (walk & w4 & _ & Hbody).
  apply bind_ok in Hbody as (files & w5 & Hfiles & Hbody).
  apply bind_ok in Hbody as (_ & w6 & _ & Hret).
  injection Hret as <- _. simpl. eauto.
Qed.

(** Two suffixes of one string: one of them is a suffix of the other. *)
Lemma endswith_both s a b :
  PyStr.endswith s a = true -> PyStr.endswith s b = true ->
  PyStr.endswith a b = true \/ PyStr.endswith b a = true.
Proof.
  induction s as [|c s IH]; intros Ha Hb.
  - rewrite endswith_nil in Ha, Hb. apply String.eqb_eq in Ha, Hb. subst. auto.
  - rewrite endswith_cons in Ha, Hb.
    apply orb_true_iff in Ha as [Ha|Ha]; apply orb_true_iff in Hb as [Hb|Hb].
    + apply String.eqb_eq in Ha, Hb. subst. left. apply endswith_refl.
    + apply String.eqb_eq in Ha. subst a. left. rewrite endswith_cons, Hb. apply orb_true_r.
    + apply String.eqb_eq in Hb. subst b. right. rewrite endswith_cons, Ha. apply orb_true_r.
    + auto.
Qed.

Lemma selected_language_not_cpp filename :
  PyStr.endswith_any filename source_suffixes = true ->
  detect_language (Path_suffix filename) <> "cpp".
Proof.
  unfold PyStr.endswith_any. intros H. apply existsb_exists in H as (suf & Hsuf & Hends).
  assert (Hdot : PyStr.rfind_dot suf = Some 0).
  { unfold source_suffixes in Hsuf. simpl in Hsuf.
    repeat (destruct Hsuf as [<-|Hsuf]; [reflexivity|]). destruct Hsuf. }
  destruct (Path_suffix_endswith filename suf Hdot Hends) as [-> | ->].
  - unfold source_suffixes in Hsuf. simpl in Hsuf.
    repeat (destruct Hsuf as [<-|Hsuf]; [vm_compute; discriminate|]). destruct Hsuf.
  - vm_compute. discriminate.
Qed.

Lemma cpp_not_selected filename :
  PyStr.endswith filename ".cpp" = true ->
  PyStr.endswith_any filename source_suffixes = false.
Proof.
  intros Hcpp. destruct (PyStr.endswith_any filename source_suffixes) eqn:Hsel; [|reflexivity].
  unfold PyStr.endswith_any in Hsel. apply existsb_exists in Hsel as (suf & Hsuf & Hends).
  destruct (endswith_both filename ".cpp" suf Hcpp Hends) as [H|H];
    unfold source_suffixes in Hsuf; simpl in Hsuf;
    repeat (destruct Hsuf as [<-|Hsuf]; [vm_compute in H; discriminate|]);
    destruct Hsuf.
Qed.

(** C10. A run that returns a snapshot has made a record only for file names
    that end, letter case included, with [.py], [.js], [.java], [.ts] or
    [.go]; a name ending with [.cpp] is never one of them, and no record
    carries the language ["cpp"]. *)
Theorem C10_only_listed_suffixes_are_analyzed
    (ext : externals) (repo_url branch : string) (w : world)
    (ctx : RepoContext) (w' : world) :
  analyze_repository ext repo_url branch w = (inr ctx, w') ->
  Forall (fun fc =>
            (exists root filename,
                path fc = path_str (os_path_join root filename) /\
                PyStr.endswith_any filename [".py"; ".js"; ".java"; ".ts"; ".go"] = true /\
                PyStr.endswith filename ".cpp" = false) /\
            language fc <> "cpp")
         (files ctx) /\
  PyStr.endswith_any "Main.PY" [".py"; ".js"; ".java"; ".ts"; ".go"] = false /\
  (forall filename, PyStr.endswith filename ".cpp" = true ->
                    PyStr.endswith_any filename [".py"; ".js"; ".java"; ".ts"; ".go"] = false).
Proof.
  intros Hrun. split; [|split; [reflexivity|exact cpp_not_selected]].
  apply analyze_repository_files in Hrun as (walk & w1 & w2 & Hfiles).
  apply analyze_files_records in Hfiles.
  eapply List.Forall_impl; [|exact Hfiles]. cbv beta.
  intros fc (root & filename & Hsel & Hpath & Hlang). split.
  - exists root, filename. repeat split; [exact Hpath|exact Hsel|].
    destruct (PyStr.endswith filename ".cpp") eqn:Hcpp; [|reflexivity].
    apply cpp_not_selected in Hcpp. rewrite Hcpp in Hsel. discriminate.
  - rewrite Hlang. apply selected_language_not_cpp. exact Hsel.
Qed.

Lemma C10_only_listed_suffixes_are_analyzed_witness :
  exists ctx w',
    analyze_repository Sample.externals Sample.url "main" Sample.fresh = (inr ctx, w') /\
    map path (files ctx)
    = ["temp_repo_main/app.py"; "temp_repo_main/pkg/util.js"; "temp_repo_main/pkg/broken.py"] /\
    Forall (fun fc => language fc <> "cpp") (files ctx).
Proof.
  destruct (analyze_repository Sample.externals Sample.url "main" Sample.fresh)
    as [[e|ctx] w'] eqn:Hrun; [vm_compute in Hrun; discriminate|].
  exists ctx, w'. split; [reflexivity|].
  pose proof (proj1 (C10_only_listed_suffixes_are_analyzed _ _ _ _ _ _ Hrun)) as Hall.
  split.
  - vm_compute in Hrun. injection Hrun as <- _. reflexivity.
  - eapply List.Forall_impl; [|exact Hall]. simpl. tauto.
Defined.

(** ** The scratch directory *)

Lemma temp_dir_not_output branch :
  temp_dir_of branch <> "repo_context.pkl" /\ temp_dir_of branch <> "repo_context.json".
Proof. unfold temp_dir_of. split; discriminate. Qed.

Lemma write_file_other name data what p :
  p <> name -> preserves (fun w => cwd w !! p) (write_file name data what).
Proof.
  intros Hne w. unfold write_file, emit, set_cwd.
  repeat case_match; simpl; try reflexivity; apply lookup_insert_ne; congruence.
Qed.

Lemma write_file_clones name data what :
  preserves (fun w => clone_events (trace w)) (write_file name data what).
Proof.
  intros w. unfold write_file, emit, set_cwd.
  repeat case_match; simpl; try reflexivity; apply clone_events_snoc.
Qed.

Lemma save_context_other ext context filename p :
  p <> filename -> p <> "repo_context.json" ->
  preserves (fun w => cwd w !! p) (save_context ext context filename).
Proof.
  intros H1 H2. unfold save_context.
  apply preserves_bind; [|intros _]; apply write_file_other; assumption.
Qed.

Lemma save_context_clones ext context filename :
  preserves (fun w => clone_events (trace w)) (save_context ext context filename).
Proof.
  unfold save_context. apply preserves_bind; [|intros _]; apply write_file_clones.
Qed.

Lemma preserves_static_cwd {A} (m : M A) p :
  preserves static m -> preserves (fun w => cwd w !! p) m.
Proof. intros H w. specialize (H w). unfold static in H. congruence. Qed.

Lemma preserves_static_clones {A} (m : M A) :
  preserves static m -> preserves (fun w => clone_events (trace w)) m.
Proof. intros H w. specialize (H w). unfold static in H. congruence. Qed.

(** After [clone_repository]: what stands at the scratch path. *)
Lemma clone_repository_scratch ext repo_url branch p w :
  cwd (snd (clone_repository ext repo_url branch p w)) !! p =
  match cwd w !! p with
  | Some e => Some e
  | None => match clone_from ext repo_url branch with
            | Some items => Some (Dir items)
            | None => None
            end
  end.
Proof.
  unfold clone_repository, try_except, os_path_exists, Repo, Repo_clone_from,
    logger, emit, raise, set_cwd, bind. simpl.
  destruct (cwd w !! p) as [e|] eqn:Hp; simpl.
  - rewrite Hp. destruct e as [data|items|]; simpl; [exact Hp| |exact Hp].
    destruct (is_git_repo ext items); exact Hp.
  - rewrite Hp. destruct (clone_from ext repo_url branch) as [items|]; simpl.
    + apply lookup_insert_eq.
    + exact Hp.
Qed.

(** The steps between the clone and the cleanup leave the scratch path alone. *)
Lemma analysis_keeps_scratch ext repo_url branch :
  preserves (fun w => cwd w !! temp_dir_of branch)
    (structure <- analyze_file_structure (temp_dir_of branch) ;;
     walk <- os_walk_io (temp_dir_of branch) ;;
     files <- analyze_files ext walk ;;
     let repo_context :=
       mkRepoContext (List.last (PyStr.split "/"%char repo_url) EmptyString)
         branch files structure
         (detect_main_languages files) (aggregate_dependencies files) in
     save_context ext repo_context "repo_context.pkl" ;;
     ret repo_context).
Proof.
  destruct (temp_dir_not_output branch) as [Hpkl Hjson].
  apply preserves_bind;
    [apply preserves_static_cwd, analyze_file_structure_static|intros structure].
  apply preserves_bind; [apply preserves_static_cwd, os_walk_io_static|intros walk].
  apply preserves_bind; [apply preserves_static_cwd, analyze_files_static|intros files].
  apply preserves_bind; [apply save_context_other; assumption|intros _].
  apply preserves_ret.
Qed.

(** The [finally] block frees the scratch path when a directory stands there. *)
Lemma cleanup_scratch p w :
  cwd (snd ((present <- os_path_exists p ;;
             if present then shutil_rmtree p else ret tt) w)) !! p =
  match cwd w !! p with
  | Some (Dir _) => None
  | other => other
  end.
Proof.
  unfold os_path_exists, shutil_rmtree, emit, ret, set_cwd, bind. simpl.
  destruct (cwd w !! p) as [e|] eqn:Hp; simpl; [|exact Hp].
  rewrite Hp. destruct e as [data|items|]; simpl; [exact Hp| |exact Hp].
  apply lookup_delete_eq.
Qed.

(** What stands at the scratch path when [analyze_repository] is over. *)
Lemma analyze_repository_scratch
    (ext : externals) (repo_url branch : string) (w : world) :
  cwd (snd (analyze_repository ext repo_url branch w)) !! temp_dir_of branch =
  match cwd w !! temp_dir_of branch with
  | Some (File data) => Some (File data)
  | Some Special => Some Special
  | Some (Dir _) | None => None
  end.
Proof.
  unfold analyze_repository. cbv zeta. rewrite try_finally_snd.
  set (body := bind (clone_repository ext repo_url branch (temp_dir_of branch)) _).
  assert (Hbody : cwd (snd (body w)) !! temp_dir_of branch
                  = match cwd w !! temp_dir_of branch with
                    | Some e => Some e
                    | None => match clone_from ext repo_url branch with
                              | Some items => Some (Dir items)
                              | None => None
                              end
                    end).
  { unfold body. rewrite <- clone_repository_scratch.
    apply (preserves_after (fun w => cwd w !! temp_dir_of branch)).
    intros _. apply analysis_keeps_scratch. }
  rewrite cleanup_scratch, Hbody.
  destruct (cwd w !! temp_dir_of branch) as [[data|items|]|]; try reflexivity.
  destruct (clone_from ext repo_url branch); reflexivity.
Qed.

(** C7. Whatever [analyze_repository] does, return or raise, no scratch
    directory is left when the call completes: a scratch path that was free or
    held a directory is free afterwards, and only a scratch path occupied by
    something that is not a directory stays as it was. *)
Theorem C7_scratch_directory_is_removed
    (ext : externals) (repo_url branch : string) (w : world) :
  (forall items,
      cwd (snd (analyze_repository ext repo_url branch w)) !! temp_dir_of branch
      <> Some (Dir items)) /\
  cwd (snd (analyze_repository ext repo_url branch w)) !! temp_dir_of branch =
  match cwd w !! temp_dir_of branch with
  | Some (File data) => Some (File data)
  | Some Special => Some Special
  | Some (Dir _) | None => None
  end.
Proof.
  split; [|apply analyze_repository_scratch].
  intros items. rewrite analyze_repository_scratch.
  destruct (cwd w !! temp_dir_of branch) as [[data|items'|]|]; discriminate.
Qed.

(** A run that raises after the scratch directory exists: the clone holds a
    source file that is not UTF-8.  The exception leaves the call and the
    directory is gone. *)
Example analyze_repository_raises_and_cleans :
  let '(r, w) := analyze_repository Sample.externals Sample.url "main" Sample.undecodable in
  r = inl (UnicodeDecodeError "temp_repo_main/blob.py") /\
  cwd w !! "temp_repo_main" = None /\
  List.last (trace w) (EvScan "") = EvRmtree "temp_repo_main".
Proof. vm_compute. repeat split. Qed.

(** The same on the normal path, starting from nothing. *)
Example analyze_repository_returns_and_cleans :
  let '(r, w) := analyze_repository Sample.externals Sample.url "main" Sample.fresh in
  (exists ctx, r = inr ctx) /\
  cwd w !! "temp_repo_main" = None /\
  List.last (trace w) (EvScan "") = EvRmtree "temp_repo_main".
Proof. vm_compute. repeat split. eexists. reflexivity. Qed.

(** ** Fetching *)

(** With the local path present, [clone_repository] opens what is there:
    no clone is made and no file changes, whether [Repo] accepts it or not. *)
Lemma clone_repository_existing ext repo_url branch p w e :
  cwd w !! p = Some e ->
  static (snd (clone_repository ext repo_url branch p w)) = static w.
Proof.
  intros Hp.
  unfold clone_repository, try_except, os_path_exists, Repo, logger, raise, bind. simpl.
  rewrite Hp. simpl. rewrite Hp.
  destruct e as [data|items|]; simpl; try reflexivity.
  destruct (is_git_repo ext items); reflexivity.
Qed.

(** With the local path free, [clone_repository] calls the clone facility
    once, whether the clone succeeds or not. *)
Lemma clone_repository_absent ext repo_url branch p w :
  cwd w !! p = None ->
  clone_events (trace (snd (clone_repository ext repo_url branch p w)))
  = (clone_events (trace w) ++ [EvClone repo_url branch p])%list.
Proof.
  intros Hp.
  unfold clone_repository, try_except, os_path_exists, Repo_clone_from, logger, raise,
    emit, set_cwd, bind. simpl.
  rewrite Hp. simpl. rewrite Hp.
  destruct (clone_from ext repo_url branch); simpl; apply clone_events_snoc.
Qed.

Lemma shutil_rmtree_clones p :
  preserves (fun w => clone_events (trace w)) (shutil_rmtree p).
Proof.
  intros w. unfold shutil_rmtree, emit, set_cwd, bind. simpl.
  repeat case_match; simpl; apply clone_events_snoc.
Qed.

Lemma cleanup_clones p :
  preserves (fun w => clone_events (trace w))
    (present <- os_path_exists p ;; if present then shutil_rmtree p else ret tt).
Proof.
  apply preserves_bind; [intros w; reflexivity|]. intros [|].
  - apply shutil_rmtree_clones.
  - apply preserves_ret.
Qed.

Lemma analysis_makes_no_clone ext repo_url branch :
  preserves (fun w => clone_events (trace w))
    (structure <- analyze_file_structure (temp_dir_of branch) ;;
     walk <- os_walk_io (temp_dir_of branch) ;;
     files <- analyze_files ext walk ;;
     let repo_context :=
       mkRepoContext (List.last (PyStr.split "/"%char repo_url) EmptyString)
         branch files structure
         (detect_main_languages files) (aggregate_dependencies files) in
     save_context ext repo_context "repo_context.pkl" ;;
     ret repo_context).
Proof.
  apply preserves_bind;
    [apply preserves_static_clones, analyze_file_structure_static|intros structure].
  apply preserves_bind; [apply preserves_static_clones, os_walk_io_static|intros walk].
  apply preserves_bind; [apply preserves_static_clones, analyze_files_static|intros files].
  apply preserves_bind; [apply save_context_clones|intros _].
  apply preserves_ret.
Qed.

(** The clones of one pipeline run are those of its [clone_repository] call. *)
Lemma analyze_repository_clones ext repo_url branch w :
  clone_events (trace (snd (analyze_repository ext repo_url branch w)))
  = clone_events (trace (snd (clone_repository ext repo_url branch (temp_dir_of branch) w))).
Proof.
  unfold analyze_repository. cbv zeta. rewrite try_finally_snd.
  rewrite (cleanup_clones (temp_dir_of branch)).
  apply (preserves_after (fun w => clone_events (trace w))).
  intros _. apply analysis_makes_no_clone.
Qed.

(** With a directory that [Repo] accepts at the local path,
    [clone_repository] returns at once and does nothing at all. *)
Lemma clone_repository_accepted ext repo_url branch p w items :
  cwd w !! p = Some (Dir items) ->
  is_git_repo ext items = true ->
  clone_repository ext repo_url branch p w = (inr tt, w).
Proof.
  intros Hp Hrepo.
  unfold clone_repository, try_except, os_path_exists, Repo, bind.
  cbn [cwd]. rewrite Hp. cbn [cwd]. rewrite Hp, Hrepo. reflexivity.
Qed.

(** With a directory that [Repo] rejects, or something that is no directory,
    it logs the error and raises it. *)
Lemma clone_repository_rejected ext repo_url branch p w e :
  cwd w !! p = Some e ->
  match e with Dir items => is_git_repo ext items | _ => false end = false ->
  clone_repository ext repo_url branch p w
  = (inl (InvalidGitRepositoryError p),
     snd (logger ERROR ("Error cloning repository: " +:+
                        exn_str (InvalidGitRepositoryError p)) w)).
Proof.
  intros Hp Hrepo.
  unfold clone_repository, try_except, os_path_exists, Repo, raise, bind.
  cbn [cwd]. rewrite Hp. cbn [cwd]. rewrite Hp.
  destruct e as [data|items|]; [reflexivity| |reflexivity].
  rewrite Hrepo. reflexivity.
Qed.

(** C9 (amended). When the local clone path already exists,
    [clone_repository] reuses what is there without cloning and leaves it in
    place: for a directory that [Repo] accepts it returns normally with
    nothing changed, otherwise it raises [Repo]'s error, and in neither case
    does it clone, so calling it again does not clone either; a pipeline run
    that finds the path present makes no clone.  The run removes a scratch
    directory in its cleanup, though, so the next pipeline run finds the path
    free and calls the clone facility. *)
Theorem C9_existing_clone_is_reused_by_one_run
    (ext : externals) (repo_url branch : string) (w : world) (e : entry) :
  cwd w !! temp_dir_of branch = Some e ->
  let fetch := clone_repository ext repo_url branch (temp_dir_of branch) in
  let run := analyze_repository ext repo_url branch in
  static (snd (fetch w)) = static w /\
  static (snd (fetch (snd (fetch w)))) = static w /\
  clone_events (trace (snd (run w))) = clone_events (trace w) /\
  (is_dir e = true ->
   cwd (snd (run w)) !! temp_dir_of branch = None /\
   clone_events (trace (snd (run (snd (run w)))))
   = (clone_events (trace w) ++ [EvClone repo_url branch (temp_dir_of branch)])%list) /\
  (forall items, e = Dir items -> is_git_repo ext items = true ->
                 fetch w = (inr tt, w) /\ fetch (snd (fetch w)) = (inr tt, w)) /\
  (match e with Dir items => is_git_repo ext items | _ => false end = false ->
   fst (fetch w) = inl (InvalidGitRepositoryError (temp_dir_of branch)) /\
   trace (snd (fetch w)) = trace w).
Proof.
  intros Hp fetch run.
  assert (H1 : static (snd (fetch w)) = static w)
    by (eapply clone_repository_existing; exact Hp).
  assert (Hrun : clone_events (trace (snd (run w))) = clone_events (trace w)).
  { unfold run. rewrite analyze_repository_clones. fold fetch.
    unfold static in H1. congruence. }
  split; [exact H1|]. split; [|split; [exact Hrun|split; [|split]]].
  - transitivity (static (snd (fetch w))); [|exact H1].
    unfold fetch at 1. apply (clone_repository_existing _ _ _ _ _ e).
    unfold static in H1. injection H1 as Hcwd _. rewrite Hcwd. exact Hp.
  - intros Hdir.
    assert (Hfree : cwd (snd (run w)) !! temp_dir_of branch = None).
    { unfold run. rewrite analyze_repository_scratch, Hp.
      destruct e; [discriminate|reflexivity|discriminate]. }
    split; [exact Hfree|]. unfold run at 1.
    rewrite analyze_repository_clones, clone_repository_absent by exact Hfree.
    rewrite Hrun. reflexivity.
  - intros items -> Hrepo.
    assert (Hf : fetch w = (inr tt, w))
      by (apply (clone_repository_accepted _ _ _ _ _ items); assumption).
    split; [exact Hf|]. rewrite Hf. exact Hf.
  - intros Hrej. unfold fetch.
    rewrite (clone_repository_rejected _ _ _ _ _ e Hp Hrej). split; reflexivity.
Qed.

Lemma C9_existing_clone_is_reused_by_one_run_witness :
  clone_repository Sample.externals Sample.url "main" "temp_repo_main" Sample.cloned
  = (inr tt, Sample.cloned) /\
  clone_events (trace (snd (analyze_repository Sample.externals Sample.url "main"
                              Sample.cloned))) = [] /\
  cwd (snd (analyze_repository Sample.externals Sample.url "main" Sample.cloned))
    !! "temp_repo_main" = None.
Proof.
  destruct (C9_existing_clone_is_reused_by_one_run Sample.externals Sample.url "main"
              Sample.cloned (Dir Sample.repo_tree) eq_refl)
    as (_ & _ & Hrun & Hnext & Hreuse & _).
  split; [exact (proj1 (Hreuse Sample.repo_tree eq_refl eq_refl))|].
  split; [exact Hrun|]. exact (proj1 (Hnext eq_refl)).
Defined.

(** The statement as written fails: of two pipeline runs against an
    already-cloned local path, the second one clones. *)
Lemma C9_second_run_clones_counterexample :
  let run := analyze_repository Sample.externals Sample.url "main" in
  cwd Sample.cloned !! "temp_repo_main" = Some (Dir Sample.repo_tree) /\
  clone_events (trace Sample.cloned) = [] /\
  clone_events (trace (snd (run (snd (run Sample.cloned)))))
  = [EvClone Sample.url "main" "temp_repo_main"].
Proof. vm_compute. repeat split. Qed.

(** * Further properties *)

(** ** Discovery order of the imports *)

Lemma nodes_size_length q : length q <= nodes_size q.
Proof.
  induction q as [|n q IH]; [reflexivity|].
  rewrite nodes_size_cons, node_size_children. simpl. lia.
Qed.

Lemma nodes_size_children q :
  nodes_size q = length q + nodes_size (flat_map iter_child_nodes q).
Proof.
  induction q as [|n q IH]; [reflexivity|].
  rewrite nodes_size_cons, node_size_children. simpl.
  rewrite nodes_size_app, IH. lia.
Qed.

(** The queue loop hands out the whole queue before any child of it. *)
Lemma walk_queue_front q : forall acc fuel,
  length q <= fuel ->
  walk_queue fuel (q ++ acc)
  = (q ++ walk_queue (fuel - length q) (acc ++ flat_map iter_child_nodes q))%list.
Proof.
  induction q as [|n q IH]; intros acc fuel Hf.
  - simpl. rewrite Nat.sub_0_r, app_nil_r. reflexivity.
  - destruct fuel as [|fuel]; [simpl in Hf; lia|].
    simpl. f_equal. rewrite <- app_assoc, IH by (simpl in Hf; lia).
    rewrite <- app_assoc. reflexivity.
Qed.

Lemma level_order_nil depth : level_order depth [] = [].
Proof. induction depth as [|d IH]; [reflexivity|]. simpl. exact IH. Qed.

Lemma walk_queue_level_order depth : forall fuel q,
  nodes_size q <= fuel -> nodes_size q <= depth ->
  walk_queue fuel q = level_order depth q.
Proof.
  induction depth as [|d IH]; intros fuel q Hf Hd.
  - pose proof (nodes_size_length q). destruct q; [|simpl in *; lia].
    destruct fuel; reflexivity.
  - pose proof (nodes_size_length q) as Hlen.
    pose proof (nodes_size_children q) as Hch.
    rewrite <- (app_nil_r q) at 1. rewrite walk_queue_front by lia.
    simpl. f_equal. destruct q as [|n q].
    + simpl. rewrite level_order_nil. destruct fuel; reflexivity.
    + apply IH; simpl in *; lia.
Qed.

Lemma preorder_children n :
  preorder n = n :: flat_map preorder (iter_child_nodes n).
Proof.
  destruct n as [names|m names lv|children]; cbn [preorder iter_child_nodes].
  - f_equal. induction names as [|a names IH]; [reflexivity|].
    cbn [map flat_map preorder app]. f_equal. exact IH.
  - f_equal. induction names as [|a names IH]; [reflexivity|].
    cbn [map flat_map preorder app]. f_equal. exact IH.
  - reflexivity.
Qed.

Lemma walk_queue_preorder fuel : forall todo,
  nodes_size todo <= fuel ->
  Permutation (walk_queue fuel todo) (flat_map preorder todo).
Proof.
  induction fuel as [|fuel IH]; intros todo Hf.
  - pose proof (nodes_size_length todo). destruct todo; [reflexivity|simpl in *; lia].
  - destruct todo as [|n rest]; [reflexivity|].
    cbn [walk_queue flat_map]. rewrite preorder_children. simpl.
    apply perm_skip. rewrite IH.
    + rewrite flat_map_app. apply Permutation_app_comm.
    + rewrite nodes_size_cons, node_size_children in Hf.
      rewrite nodes_size_app. lia.
Qed.

(** X1. [extract_imports] lists the imports level by level: those of the
    statements at one nesting depth, left to right, before any import nested
    more deeply.  The order is breadth first, not the order of the source
    text. *)
Theorem X1_imports_come_level_by_level (ext : externals) (content : string)
    (tree : node) (w : world) :
  ast_parse ext content = Some tree ->
  extract_imports ext content "python" w
  = (inr (flat_map node_imports (level_order (node_size tree) [tree])), w).
Proof.
  intros Hparse. unfold extract_imports, try_except, bind, lift, ret.
  rewrite Hparse. simpl String.eqb. cbv iota. unfold collect_imports, ast_walk.
  rewrite (walk_queue_level_order (node_size tree));
    [reflexivity| |]; rewrite nodes_size_cons; simpl; lia.
Qed.

Lemma X1_imports_come_level_by_level_witness :
  let nested := Other [Other [Import [mkAlias "late" None]];
                       Import [mkAlias "early" None]] in
  let ext := mkExternals (fun _ => Some nested) (fun _ _ => None)
               (fun _ => true) (fun _ => EmptyString) in
  extract_imports ext "def f(): import late" "python" Sample.fresh
  = (inr ["early"; "late"], Sample.fresh).
Proof.
  intros nested ext.
  rewrite (X1_imports_come_level_by_level ext _ nested Sample.fresh eq_refl).
  reflexivity.
Defined.

(** X2. Every import statement of the tree, however deeply nested, is
    reported, and none twice: the result is a rearrangement of the imports
    read off the tree in source order. *)
Theorem X2_no_import_is_lost (ext : externals) (content : string)
    (tree : node) (w : world) :
  ast_parse ext content = Some tree ->
  exists imports,
    extract_imports ext content "python" w = (inr imports, w) /\
    Permutation imports (flat_map node_imports (preorder tree)).
Proof.
  intros Hparse. exists (collect_imports tree). split.
  - unfold extract_imports, try_except, bind, lift, ret. rewrite Hparse. reflexivity.
  - unfold collect_imports, ast_walk.
    rewrite (Permutation_flat_map node_imports
               (walk_queue_preorder (node_size tree) [tree] ltac:(rewrite nodes_size_cons; simpl; lia))).
    simpl. rewrite app_nil_r. reflexivity.
Qed.

Lemma X2_no_import_is_lost_witness :
  exists imports,
    extract_imports Sample.externals Sample.two_imports "python" Sample.fresh
    = (inr imports, Sample.fresh) /\
    Permutation imports ["os"; "a.b.c"].
Proof.
  destruct (X2_no_import_is_lost Sample.externals Sample.two_imports
              (Other [Import [mkAlias "os" None];
                      ImportFrom (Some "a.b") [mkAlias "c" None] 0])
              Sample.fresh eq_refl) as (imports & Hrun & Hperm).
  exists imports. split; [exact Hrun|exact Hperm].
Defined.

(** [extract_imports] never raises; the world changes only when the language
    is ["python"] and the parse fails, and then by one warning in the log. *)
Lemma extract_imports_run (ext : externals) (content language : string) (w : world) :
  extract_imports ext content language w
  = (inr (imports_of ext content language),
     if String.eqb language "python" then
       match ast_parse ext content with
       | Some _ => w
       | None => snd (logger WARNING "Could not parse Python imports" w)
       end
     else w).
Proof.
  unfold extract_imports, imports_of, try_except, bind, lift, ret.
  destruct (String.eqb language "python"); [|reflexivity].
  destruct (ast_parse ext content); reflexivity.
Qed.

(** ** One file *)

Lemma analyze_file_content_fst (ext : externals) (file_path : list string) (w : world) :
  fst (analyze_file_content ext file_path w) =
  match resolve (cwd w) file_path with
  | Some (File (Text content)) => inr (file_record ext file_path content)
  | Some (File Binary) => inl (UnicodeDecodeError (path_str file_path))
  | Some (Dir _) => inl (IsADirectoryError (path_str file_path))
  | Some Special => inl (OSError (path_str file_path))
  | None => inl (FileNotFoundError (path_str file_path))
  end.
Proof.
  unfold analyze_file_content, open_read. rewrite !run_bind. cbn [emit cwd].
  destruct (resolve (cwd w) file_path) as [[[content|]|items|]|]; try reflexivity.
  rewrite run_bind, extract_imports_run. reflexivity.
Qed.

(** X3. [analyze_file_content] returns a record exactly for a path that
    holds text: the record carries the text, the language of the name's
    suffix, no dependencies and the fixed description, and its imports are
    empty unless the language is ["python"]; a parse failure does not stop it.
    Any other path raises the error of [open], and nothing is recorded. *)
Theorem X3_analyze_file_content_outcome (ext : externals)
    (file_path : list string) (w : world) :
  fst (analyze_file_content ext file_path w) =
  match resolve (cwd w) file_path with
  | Some (File (Text content)) => inr (file_record ext file_path content)
  | Some (File Binary) => inl (UnicodeDecodeError (path_str file_path))
  | Some (Dir _) => inl (IsADirectoryError (path_str file_path))
  | Some Special => inl (OSError (path_str file_path))
  | None => inl (FileNotFoundError (path_str file_path))
  end /\
  (forall content,
      language (file_record ext file_path content) <> "python" ->
      imports (file_record ext file_path content) = []) /\
  (forall content,
      dependencies (file_record ext file_path content) = [] /\
      description (file_record ext file_path content)
      = "Source code file in " +:+ language (file_record ext file_path content)).
Proof.
  split; [|split].
  - apply analyze_file_content_fst.
  - intros content Hlang. unfold file_record, imports_of in *. simpl in *.
    apply String.eqb_neq in Hlang. rewrite Hlang. reflexivity.
  - intros content. split; reflexivity.
Qed.

Lemma X3_analyze_file_content_outcome_witness :
  imports (file_record Sample.externals ["temp_repo_main"; "pkg"; "util.js"] "import os")
  = [].
Proof.
  apply (proj1 (proj2 (X3_analyze_file_content_outcome Sample.externals
                         ["temp_repo_main"; "pkg"; "util.js"] Sample.fresh))).
  vm_compute. discriminate.
Defined.

(** The run of [analyze_file_content] on a text file, with what it leaves. *)
Lemma analyze_file_content_text ext file_path content w :
  resolve (cwd w) file_path = Some (File (Text content)) ->
  exists w', analyze_file_content ext file_path w
             = (inr (file_record ext file_path content), w') /\
             static w' = static w.
Proof.
  intros Hres.
  destruct (analyze_file_content ext file_path w) as [r w'] eqn:Hrun.
  exists w'. split.
  - pose proof (analyze_file_content_fst ext file_path w) as H.
    rewrite Hrun, Hres in H. simpl in H. subst r. reflexivity.
  - pose proof (analyze_file_content_static ext file_path w) as H.
    rewrite Hrun in H. exact H.
Qed.

(** ** The two loops over the walk *)

Lemma for_each_app {A S} (xs ys : list A) (body : S -> A -> M S) : forall s w,
  for_each (xs ++ ys) body s w = bind (for_each xs body s) (for_each ys body) w.
Proof.
  induction xs as [|x xs IH]; intros s w; [reflexivity|].
  simpl. unfold bind. destruct (body s x w) as [[e|s1] w1]; [reflexivity|].
  exact (IH s1 w1).
Qed.

Lemma child_In its name e :
  distinct (map fst its) = true -> In (name, e) its -> child its name = Some e.
Proof.
  induction its as [|[n0 e0] its IH]; intros Hd Hin; [destruct Hin|].
  cbn [map fst distinct] in Hd. apply andb_true_iff in Hd as [Hn0 Hd].
  apply negb_true_iff, existsb_eqb_false in Hn0. cbn [child].
  destruct Hin as [Heq|Hin].
  - injection Heq as -> ->. rewrite String.eqb_refl. reflexivity.
  - destruct (String.eqb n0 name) eqn:E; [|auto].
    apply String.eqb_eq in E. subst n0. exfalso. apply Hn0.
    apply (in_map fst) in Hin. exact Hin.
Qed.

Lemma child_Some_In its name e : child its name = Some e -> In (name, e) its.
Proof.
  induction its as [|[n0 e0] its IH]; [discriminate|]. cbn [child].
  destruct (String.eqb n0 name) eqn:E.
  - apply String.eqb_eq in E. intros [= ->]. left. congruence.
  - intros H. right. auto.
Qed.

Lemma lookup_entry_snoc p : forall e name,
  lookup_entry e (p ++ [name]) =
  match lookup_entry e p with
  | Some (Dir items) => child items name
  | _ => None
  end.
Proof.
  induction p as [|n p IH]; intros e name.
  - simpl. destruct e as [data|items|]; try reflexivity.
    destruct (child items name); reflexivity.
  - simpl. destruct e as [data|items|]; try reflexivity.
    destruct (child items n); [apply IH|reflexivity].
Qed.

Lemma resolve_snoc fs p name :
  p <> [] ->
  resolve fs (p ++ [name]) =
  match resolve fs p with
  | Some (Dir items) => child items name
  | _ => None
  end.
Proof.
  destruct p as [|top rest]; [congruence|]. intros _. simpl.
  destruct (fs !! top); [apply lookup_entry_snoc|reflexivity].
Qed.

Lemma os_walk_Dir top items :
  os_walk top (Dir items)
  = (top, dirnames items, filenames items) :: walk_below top items.
Proof. reflexivity. Qed.

Lemma tree_records_Dir ext top items :
  tree_records ext top (Dir items)
  = (dir_records ext top items ++ records_below ext top items)%list.
Proof. reflexivity. Qed.

Lemma analysable_Dir items :
  analysable (Dir items) = distinct (map fst items) && analysable_items items.
Proof. reflexivity. Qed.

Lemma filenames_cons n e l :
  filenames ((n, e) :: l) = if is_dir e then filenames l else n :: filenames l.
Proof. unfold filenames. simpl. destruct (is_dir e); reflexivity. Qed.

Lemma dir_records_cons ext root n e l :
  dir_records ext root ((n, e) :: l)
  = (match e with
     | File (Text content) =>
         if selected n then [file_record ext (os_path_join root n) content] else []
     | _ => []
     end ++ dir_records ext root l)%list.
Proof. reflexivity. Qed.

Lemma analyze_filenames_cons ext root n names files w :
  analyze_filenames ext root (n :: names) files w =
  if selected n then
    match analyze_file_content ext (os_path_join root n) w with
    | (inr fc, w') => analyze_filenames ext root names (files ++ [fc])%list w'
    | (inl e, w') => (inl e, w')
    end
  else analyze_filenames ext root names files w.
Proof.
  unfold analyze_filenames, selected. cbn [for_each]. rewrite run_bind.
  destruct (PyStr.endswith_any n source_suffixes); [|reflexivity].
  rewrite run_bind.
  destruct (analyze_file_content ext (os_path_join root n) w) as [[e|fc] w']; reflexivity.
Qed.

(** The inner loop over the file names of one directory. *)
Lemma analyze_filenames_dir ext root all_items :
  root <> [] ->
  forall l files w,
    resolve (cwd w) root = Some (Dir all_items) ->
    (forall n e, In (n, e) l -> child all_items n = Some e) ->
    analysable_items l = true ->
    exists w', analyze_filenames ext root (filenames l) files w
               = (inr (files ++ dir_records ext root l)%list, w') /\
               static w' = static w.
Proof.
  intros Hroot. induction l as [|[n e] l IH]; intros files w Hres Hchild Hok.
  - exists w. split; [|reflexivity]. simpl. rewrite app_nil_r. reflexivity.
  - cbn [analysable_items] in Hok. apply andb_true_iff in Hok as [He Hok].
    assert (Hchild' : forall n' e', In (n', e') l -> child all_items n' = Some e')
      by (intros n' e' Hin; apply Hchild; right; exact Hin).
    assert (Hn : resolve (cwd w) (os_path_join root n) = Some e).
    { unfold os_path_join. rewrite resolve_snoc, Hres by exact Hroot.
      apply Hchild. left. reflexivity. }
    rewrite filenames_cons, dir_records_cons.
    destruct e as [[content|]|sub|]; cbn [is_dir].
    + rewrite analyze_filenames_cons. destruct (selected n) eqn:Hsel.
      * destruct (analyze_file_content_text ext _ content w Hn) as (w1 & -> & Hw1).
        destruct (IH (files ++ [file_record ext (os_path_join root n) content])%list w1)
          as (w' & Hrun & Hw'); auto.
        { unfold static in Hw1. injection Hw1 as -> _. exact Hres. }
        exists w'. rewrite Hrun, <- app_assoc. split; [reflexivity|congruence].
      * apply IH; auto.
    + rewrite analyze_filenames_cons. apply negb_true_iff in He. rewrite He.
      apply IH; auto.
    + apply IH; auto.
    + rewrite analyze_filenames_cons. apply negb_true_iff in He. rewrite He.
      apply IH; auto.
Qed.

(** The outer loop over a whole tree: one record per selected file, in the
    order of the walk, and nothing but the log and the trace has changed. *)
Lemma analyze_tree ext e : forall top files w,
  top <> [] ->
  resolve (cwd w) top = Some e ->
  analysable e = true ->
  exists w',
    for_each (os_walk top e)
      (fun files '(root, _, filenames) => analyze_filenames ext root filenames files)
      files w
    = (inr (files ++ tree_records ext top e)%list, w') /\
    static w' = static w.
Proof.
  induction e as [data| |items IH] using entry_nested_ind; intros top files w Htop Hres Hok.
  - exists w. simpl. rewrite app_nil_r. split; reflexivity.
  - exists w. simpl. rewrite app_nil_r. split; reflexivity.
  - rewrite analysable_Dir in Hok. apply andb_true_iff in Hok as [Hd Hok].
    rewrite os_walk_Dir, tree_records_Dir. cbn [for_each]. rewrite run_bind.
    destruct (analyze_filenames_dir ext top items Htop items files w Hres)
      as (w1 & -> & Hw1); auto using child_In.
    assert (Hres1 : resolve (cwd w1) top = Some (Dir items)).
    { unfold static in Hw1. injection Hw1 as -> _. exact Hres. }
    assert (Hbelow : forall l files1 w1,
               resolve (cwd w1) top = Some (Dir items) ->
               (forall n e, In (n, e) l -> child items n = Some e) ->
               Forall (fun it => forall top files w,
                           top <> [] -> resolve (cwd w) top = Some (snd it) ->
                           analysable (snd it) = true ->
                           exists w', for_each (os_walk top (snd it))
                                        (fun files '(root, _, filenames) =>
                                           analyze_filenames ext root filenames files)
                                        files w
                                      = (inr (files ++ tree_records ext top (snd it))%list, w')
                                      /\ static w' = static w) l ->
               analysable_items l = true ->
               exists w', for_each (walk_below top l)
                            (fun files '(root, _, filenames) =>
                               analyze_filenames ext root filenames files)
                            files1 w1
                          = (inr (files1 ++ records_below ext top l)%list, w') /\
                          static w' = static w1).
    { clear. induction l as [|[n sub] l IHl]; intros files1 w1 Hres Hchild HIH Hok.
      - exists w1. simpl. rewrite app_nil_r. split; reflexivity.
      - apply Forall_cons in HIH as [Hsub HIH]. cbn [snd] in Hsub.
        cbn [analysable_items] in Hok. apply andb_true_iff in Hok as [Hn Hok].
        cbn [walk_below records_below]. fold (walk_below top). fold (records_below ext top).
        rewrite for_each_app, run_bind.
        destruct (Hsub (top ++ [n])%list files1 w1) as (w2 & -> & Hw2).
        + destruct top; discriminate.
        + assert (top <> []) by (intros ->; discriminate).
          simpl. rewrite resolve_snoc, Hres by assumption.
          apply Hchild. left. reflexivity.
        + simpl. destruct sub as [[? |]|?|]; try reflexivity. exact Hn.
        + destruct (IHl (files1 ++ tree_records ext (top ++ [n]) sub)%list w2)
            as (w' & -> & Hw'); auto.
          * unfold static in Hw2. injection Hw2 as -> _. exact Hres.
          * intros n' e' Hin. apply Hchild. right. exact Hin.
          * exists w'. rewrite <- app_assoc. split; [reflexivity|congruence]. }
    destruct (Hbelow items (files ++ dir_records ext top items)%list w1)
      as (w' & -> & Hw'); auto using child_In.
    exists w'. rewrite <- app_assoc. split; [reflexivity|congruence].
Qed.

Lemma records_below_In ext top items name sub fc :
  In (name, sub) items ->
  In fc (tree_records ext (top ++ [name]) sub) ->
  In fc (records_below ext top items).
Proof.
  induction items as [|[n0 e0] items IH]; intros Hin Hfc; [destruct Hin|].
  cbn [records_below]. fold (records_below ext top). apply in_or_app.
  destruct Hin as [Heq|Hin].
  - injection Heq as -> ->. left. exact Hfc.
  - right. auto.
Qed.

(** A readable selected file anywhere in the tree has its record. *)
Lemma tree_records_lookup ext rel : forall e top name content,
  lookup_entry e (rel ++ [name]) = Some (File (Text content)) ->
  selected name = true ->
  In (file_record ext (top ++ rel ++ [name]) content) (tree_records ext top e).
Proof.
  induction rel as [|m rel IH]; intros e top name content Hlook Hsel.
  - simpl in Hlook. destruct e as [data|items|]; try discriminate.
    destruct (child items name) as [e'|] eqn:Hchild; [|discriminate].
    simpl in Hlook. injection Hlook as ->. apply child_Some_In in Hchild.
    rewrite tree_records_Dir. apply in_or_app. left.
    unfold dir_records. apply in_flat_map. exists (name, File (Text content)).
    split; [exact Hchild|]. simpl. rewrite Hsel. left. reflexivity.
  - simpl in Hlook. destruct e as [data|items|]; try discriminate.
    destruct (child items m) as [sub|] eqn:Hchild; [|discriminate].
    apply child_Some_In in Hchild.
    rewrite tree_records_Dir. apply in_or_app. right.
    apply (records_below_In ext top items m sub); [exact Hchild|].
    replace (top ++ (m :: rel) ++ [name])%list
      with ((top ++ [m]) ++ rel ++ [name])%list by (rewrite <- app_assoc; reflexivity).
    apply IH; assumption.
Qed.

(** X4. When every file with a selected name can be read as text, the two
    loops of [analyze_repository] never raise: they make one record per such
    file, each the record of [analyze_file_content], directory by directory
    in the order of the walk, and leave the files as they were. *)
Theorem X4_one_record_per_selected_file (ext : externals) (top : string)
    (e : entry) (w : world) :
  cwd w !! top = Some e ->
  analysable e = true ->
  exists w',
    analyze_files ext (os_walk [top] e) w = (inr (tree_records ext [top] e), w') /\
    cwd w' = cwd w.
Proof.
  intros Hcwd Hok.
  assert (Hres : resolve (cwd w) [top] = Some e) by (simpl; rewrite Hcwd; reflexivity).
  destruct (analyze_tree ext e [top] [] w ltac:(discriminate) Hres Hok)
    as (w' & Hrun & Hw').
  exists w'. split; [exact Hrun|]. unfold static in Hw'. congruence.
Qed.

Lemma X4_one_record_per_selected_file_witness :
  fst (analyze_files Sample.externals (os_walk ["temp_repo_main"] (Dir Sample.repo_tree))
         Sample.cloned)
  = inr [file_record Sample.externals ["temp_repo_main"; "app.py"] Sample.two_imports;
         file_record Sample.externals ["temp_repo_main"; "pkg"; "util.js"] "export {}";
         file_record Sample.externals ["temp_repo_main"; "pkg"; "broken.py"] "import"].
Proof.
  destruct (X4_one_record_per_selected_file Sample.externals "temp_repo_main"
              (Dir Sample.repo_tree) Sample.cloned eq_refl eq_refl) as (w' & -> & _).
  reflexivity.
Defined.

(** X5. The walk of the analysis skips nothing: a readable file with a
    selected name has its record in the result wherever it lies in the tree,
    also below a hidden directory or a [__pycache__], which the structure
    mapping leaves out. *)
Theorem X5_files_below_hidden_directories_are_analysed (ext : externals)
    (top : string) (e : entry) (w : world)
    (rel : list string) (name content : string) :
  cwd w !! top = Some e ->
  analysable e = true ->
  lookup_entry e (rel ++ [name]) = Some (File (Text content)) ->
  selected name = true ->
  exists files w',
    analyze_files ext (os_walk [top] e) w = (inr files, w') /\
    In (file_record ext (top :: rel ++ [name]) content) files.
Proof.
  intros Hcwd Hok Hlook Hsel.
  assert (Hres : resolve (cwd w) [top] = Some e) by (simpl; rewrite Hcwd; reflexivity).
  destruct (analyze_tree ext e [top] [] w ltac:(discriminate) Hres Hok)
    as (w' & Hrun & _).
  exists (tree_records ext [top] e), w'. split; [exact Hrun|].
  apply (tree_records_lookup ext rel e [top]); assumption.
Qed.

Lemma X5_files_below_hidden_directories_are_analysed_witness :
  let tree := Dir [(".hooks", Dir [("pre.py", File (Text "pass"))]);
                   ("__pycache__", Dir [("gen.py", File (Text "pass"))])] in
  let w := mkWorld ∅ {[ "repo" := tree ]} [] [] [] in
  fst (analyze_file_structure "repo" w) = inr [] /\
  exists files w',
    analyze_files Sample.externals (os_walk ["repo"] tree) w = (inr files, w') /\
    In (file_record Sample.externals ["repo"; ".hooks"; "pre.py"] "pass") files.
Proof.
  intros tree w. split; [reflexivity|].
  apply (X5_files_below_hidden_directories_are_analysed Sample.externals "repo" tree w
           [".hooks"] "pre.py" "pass"); reflexivity.
Defined.

(** ** The structure mapping, without assumptions on the tree *)

Lemma listable_Dir items : listable (Dir items) = listable_items items.
Proof. reflexivity. Qed.

Lemma build_items_outcome items :
  Forall (fun it => forall name cur,
              match build_structure name (snd it) cur with
              | inr _ => listable (snd it) = true
              | inl (NotADirectoryError _) => listable (snd it) = false
              | inl _ => False
              end) items ->
  forall cur,
    match build_items items cur with
    | inr _ => listable_items items = true
    | inl (NotADirectoryError _) => listable_items items = false
    | inl _ => False
    end.
Proof.
  induction 1 as [|[name item] items Hitem _ IH]; intros cur; [reflexivity|].
  cbn [build_items listable_items]. fold build_items. fold listable_items.
  cbn [snd] in Hitem.
  destruct (skipped name); cbn [orb andb]; [apply IH|].
  destruct item as [data|sub|].
  - apply IH.
  - specialize (Hitem name []).
    destruct (build_structure name (Dir sub) []) as [err|d].
    + destruct err; try contradiction. rewrite Hitem. reflexivity.
    + rewrite Hitem. apply IH.
  - reflexivity.
Qed.

Lemma build_structure_outcome e : forall name cur,
  match build_structure name e cur with
  | inr _ => listable e = true
  | inl (NotADirectoryError _) => listable e = false
  | inl _ => False
  end.
Proof.
  induction e as [data| |items IH] using entry_nested_ind; intros name cur;
    try reflexivity.
  rewrite build_structure_Dir, listable_Dir. apply build_items_outcome, IH.
Qed.

(** X6. For a tree of regular files, directories and entries that are
    neither (listing such an entry raises), [analyze_file_structure] returns
    a mapping exactly when the scratch path is a directory in which no entry
    of the third kind can be reached through entries the walker does not
    skip; in every other case, a missing path included, it raises.  Such
    entries below hidden directories do no harm. *)
Theorem X6_structure_walk_fails_on_special_entries (local_path : string) (w : world) :
  match fst (analyze_file_structure local_path w) with
  | inr _ => exists e, cwd w !! local_path = Some e /\ listable e = true
  | inl _ =>
      cwd w !! local_path = None \/
      exists e, cwd w !! local_path = Some e /\ listable e = false
  end.
Proof.
  unfold analyze_file_structure. rewrite run_bind. cbn [emit cwd].
  destruct (cwd w !! local_path) as [e|]; [|left; reflexivity]. cbn [fst].
  pose proof (build_structure_outcome e local_path []) as H.
  destruct (build_structure local_path e []) as [err|d]; [|eauto].
  destruct err; try contradiction. eauto.
Qed.

Lemma clean_set cur name s :
  clean (Sub cur) = true -> skipped name = false -> clean s = true ->
  clean (Sub (PyDict.set cur name s)) = true.
Proof.
  intros Hcur Hname Hs. induction cur as [|[n0 s0] cur IH].
  - simpl. rewrite Hname, Hs. reflexivity.
  - cbn [PyDict.set]. change (clean (Sub ((n0, s0) :: cur)))
      with (negb (skipped n0) && clean s0 && clean (Sub cur)) in Hcur.
    apply andb_true_iff in Hcur as [Hcur1 Hcur2].
    apply andb_true_iff in Hcur1 as [Hn0 Hs0].
    destruct (String.eqb n0 name).
    + change (clean (Sub ((n0, s) :: cur)))
        with (negb (skipped n0) && clean s && clean (Sub cur)).
      rewrite Hn0, Hs, Hcur2. reflexivity.
    + change (clean (Sub ((n0, s0) :: PyDict.set cur name s)))
        with (negb (skipped n0) && clean s0 && clean (Sub (PyDict.set cur name s))).
      rewrite Hn0, Hs0, IH by exact Hcur2. reflexivity.
Qed.

Lemma build_items_clean items :
  Forall (fun it => forall name d,
              build_structure name (snd it) [] = inr d -> clean (Sub d) = true) items ->
  forall cur d,
    clean (Sub cur) = true -> build_items items cur = inr d -> clean (Sub d) = true.
Proof.
  induction 1 as [|[name item] items Hitem _ IH]; intros cur d Hcur Hrun.
  - injection Hrun as <-. exact Hcur.
  - cbn [build_items] in Hrun. fold build_items in Hrun. cbn [snd] in Hitem.
    destruct (skipped name) eqn:Hskip; [eapply IH; eauto|].
    destruct item as [data|sub|].
    + eapply IH; [|exact Hrun]. apply clean_set; auto.
    + destruct (build_structure name (Dir sub) []) as [err|dsub] eqn:Hsub; [discriminate|].
      eapply IH; [|exact Hrun]. apply clean_set; auto. apply (Hitem name). exact Hsub.
    + discriminate.
Qed.

Lemma build_structure_clean e : forall name d,
  build_structure name e [] = inr d -> clean (Sub d) = true.
Proof.
  induction e as [data| |items IH] using entry_nested_ind; intros name d Hrun;
    try discriminate.
  rewrite build_structure_Dir in Hrun.
  apply (build_items_clean items IH [] d); [reflexivity|exact Hrun].
Qed.

(** X7. Whatever the tree looks like, a structure mapping that
    [analyze_file_structure] returns holds no name that starts with a dot and
    no [__pycache__], at any depth, and no name twice in its top level. *)
Theorem X7_structure_never_names_skipped_entries (local_path : string) (w : world)
    (d : PyDict.dict structure) (w' : world) :
  analyze_file_structure local_path w = (inr d, w') ->
  clean (Sub d) = true /\
  (forall name, In name (PyDict.keys d) ->
                hidden name = false /\ name <> "__pycache__").
Proof.
  unfold analyze_file_structure. rewrite run_bind. cbn [emit cwd].
  destruct (cwd w !! local_path) as [e|]; [|discriminate].
  intros [= Hrun _]. apply build_structure_clean in Hrun. split; [exact Hrun|].
  clear -Hrun. induction d as [|[n s] d IH]; intros name Hin; [destruct Hin|].
  change (clean (Sub ((n, s) :: d)))
    with (negb (skipped n) && clean s && clean (Sub d)) in Hrun.
  apply andb_true_iff in Hrun as [Hrun1 Hd]. apply andb_true_iff in Hrun1 as [Hn _].
  destruct Hin as [<-|Hin]; [|auto].
  apply negb_true_iff in Hn. unfold skipped in Hn.
  apply orb_false_iff in Hn as [Hh Hp]. apply String.eqb_neq in Hp. auto.
Qed.

Lemma X7_structure_never_names_skipped_entries_witness :
  exists d w',
    analyze_file_structure "temp_repo_main" Sample.cloned = (inr d, w') /\
    clean (Sub d) = true.
Proof.
  destruct (analyze_file_structure "temp_repo_main" Sample.cloned) as [[err|d] w'] eqn:Hrun;
    [vm_compute in Hrun; discriminate|].
  exists d, w'. split; [reflexivity|].
  exact (proj1 (X7_structure_never_names_skipped_entries _ _ _ _ Hrun)).
Defined.

(** ** Ties in the ranking, and the order of the keys *)

Lemma insert_desc_same_count c x l :
  List.filter (fun p : string * nat => Nat.eqb (snd p) c) (insert_desc x l)
  = List.filter (fun p : string * nat => Nat.eqb (snd p) c) (x :: l).
Proof.
  induction l as [|y l IH]; [reflexivity|].
  cbn [insert_desc]. destruct (snd y <=? snd x)%nat eqn:E; [reflexivity|].
  apply Nat.leb_gt in E. cbn [List.filter] in *. rewrite IH.
  destruct (Nat.eqb (snd x) c) eqn:Ex; destruct (Nat.eqb (snd y) c) eqn:Ey; try reflexivity.
  apply Nat.eqb_eq in Ex, Ey. lia.
Qed.

(** The sort is stable: entries with one count keep their order. *)
Lemma sorted_by_count_desc_stable c l :
  List.filter (fun p : string * nat => Nat.eqb (snd p) c) (sorted_by_count_desc l)
  = List.filter (fun p : string * nat => Nat.eqb (snd p) c) l.
Proof.
  induction l as [|x l IH]; [reflexivity|].
  cbn [sorted_by_count_desc fold_right]. fold (sorted_by_count_desc l).
  rewrite insert_desc_same_count. cbn [List.filter]. rewrite IH. reflexivity.
Qed.

Lemma filter_twice {A} (f g h : A -> bool) l :
  (forall x, h x = g x && f x) ->
  List.filter f (List.filter g l) = List.filter h l.
Proof.
  intros Hh. induction l as [|x l IH]; [reflexivity|].
  cbn [List.filter]. rewrite Hh. destruct (g x); cbn [List.filter andb].
  - rewrite IH. reflexivity.
  - exact IH.
Qed.

Lemma filter_all {A} (f : A -> bool) l :
  (forall x, f x = true) -> List.filter f l = l.
Proof.
  intros Hf. induction l as [|x l IH]; [reflexivity|].
  cbn [List.filter]. rewrite Hf, IH. reflexivity.
Qed.

Lemma existsb_eqb_In k (l : list string) :
  existsb (String.eqb k) l = true <-> In k l.
Proof.
  rewrite existsb_exists. split.
  - intros (x & Hx & E). apply String.eqb_eq in E. subst. exact Hx.
  - intros H. exists k. split; [exact H|apply String.eqb_refl].
Qed.

Lemma get_is_key {V} (d : PyDict.dict V) k :
  existsb (String.eqb k) (PyDict.keys d)
  = match PyDict.get d k with Some _ => true | None => false end.
Proof.
  destruct (PyDict.get d k) eqn:E.
  - apply existsb_eqb_In. destruct (in_dec string_dec k (PyDict.keys d)) as [H|H];
      [exact H|]. apply dict_get_None in H. congruence.
  - apply dict_get_None in E. destruct (existsb _ _) eqn:E'; [|reflexivity].
    apply existsb_eqb_In in E'. contradiction.
Qed.

(** The keys of a tally: those it started with, then the new ones in the
    order of their first occurrence. *)
Lemma tally_keys_order ks : forall d,
  PyDict.keys (tally ks d)
  = (PyDict.keys d ++
     List.filter (fun k => negb (existsb (String.eqb k) (PyDict.keys d)))
                 (first_seen ks))%list.
Proof.
  induction ks as [|k ks IH]; intros d.
  - simpl. rewrite app_nil_r. reflexivity.
  - change (tally (k :: ks) d)
      with (tally ks (PyDict.set d k (PyDict.get_default d k 0 + 1))).
    rewrite IH, dict_keys_set. cbn [first_seen List.filter].
    rewrite get_is_key. destruct (PyDict.get d k) eqn:E; cbn [negb].
    + f_equal. symmetry. apply filter_twice. intros x.
      destruct (existsb (String.eqb x) (PyDict.keys d)) eqn:Ex;
        [rewrite andb_false_r; reflexivity|].
      rewrite andb_true_r. symmetry. apply negb_true_iff.
      apply String.eqb_neq. intros ->.
      assert (existsb (String.eqb x) (PyDict.keys d) = true); [|congruence].
      rewrite get_is_key, E. reflexivity.
    + rewrite <- app_assoc. cbn [app]. do 2 f_equal. symmetry.
      apply filter_twice. intros x. rewrite existsb_app. cbn [existsb].
      rewrite orb_false_r, negb_orb, (String.eqb_sym x k). apply andb_comm.
Qed.

Lemma filter_map_fst {V} (g : string -> bool) (h : string * V -> bool) l :
  (forall p, In p l -> h p = g (fst p)) ->
  List.filter g (map fst l) = map fst (List.filter h l).
Proof.
  induction l as [|p l IH]; intros Hh; [reflexivity|].
  cbn [map List.filter]. rewrite (Hh p) by (left; reflexivity).
  rewrite IH by (intros q Hq; apply Hh; right; exact Hq).
  destruct (g (fst p)); reflexivity.
Qed.

(** X8. Ties in the ranking are settled by the file list: among the
    languages with one and the same file count, [detect_main_languages]
    keeps the order in which the languages first occur in [files]. *)
Theorem X8_ties_keep_first_occurrence_order (files : list FileContext) (c : nat) :
  List.filter (fun lang => Nat.eqb (file_count files lang) c) (detect_main_languages files)
  = List.filter (fun lang => Nat.eqb (file_count files lang) c)
                (first_seen (map language files)).
Proof.
  unfold detect_main_languages, PyDict.items.
  rewrite (filter_map_fst _ (fun p : string * nat => Nat.eqb (snd p) c)).
  - rewrite sorted_by_count_desc_stable.
    rewrite <- (filter_map_fst (fun lang => Nat.eqb (file_count files lang) c)).
    + f_equal. change (map fst (count_languages files))
        with (PyDict.keys (count_languages files)).
      rewrite count_languages_tally, tally_keys_order. simpl.
      apply filter_all. reflexivity.
    + intros [lang n] Hin. apply count_languages_item in Hin. subst n. reflexivity.
  - intros [lang n] Hin.
    apply (Permutation_in _ (sorted_by_count_desc_perm _)) in Hin.
    apply count_languages_item in Hin. subst n. reflexivity.
Qed.

(** X9. [aggregate_dependencies] lists the names in the order of their first
    occurrence over the files, and it is additive: the count of a name over
    two file lists put together is the sum of its counts over each. *)
Theorem X9_dependency_counts_are_additive (files1 files2 : list FileContext) :
  PyDict.keys (aggregate_dependencies files1)
  = first_seen (flat_map dependencies files1) /\
  (forall dep,
      PyDict.get_default (aggregate_dependencies (files1 ++ files2)) dep 0
      = PyDict.get_default (aggregate_dependencies files1) dep 0 +
        PyDict.get_default (aggregate_dependencies files2) dep 0).
Proof.
  split.
  - rewrite aggregate_dependencies_tally, tally_keys_order. simpl.
    apply filter_all. reflexivity.
  - intros dep. rewrite !aggregate_dependencies_tally, !tally_count, flat_map_app.
    rewrite count_occ_app. simpl. lia.
Qed.

(** ** The snapshot *)

Lemma analyze_file_content_record ext file_path w fc w' :
  analyze_file_content ext file_path w = (inr fc, w') ->
  exists content,
    resolve (cwd w) file_path = Some (File (Text content)) /\
    fc = file_record ext file_path content.
Proof.
  intros Hrun. pose proof (analyze_file_content_fst ext file_path w) as H.
  rewrite Hrun in H. simpl in H.
  destruct (resolve (cwd w) file_path) as [[[content|]|items|]|]; try discriminate.
  injection H as ->. eauto.
Qed.

Lemma analyze_files_file_records ext walk w files w' :
  analyze_files ext walk w = (inr files, w') ->
  Forall (fun fc => exists root filename content,
              selected filename = true /\
              fc = file_record ext (os_path_join root filename) content) files.
Proof.
  unfold analyze_files. apply for_each_invariant; [|constructor].
  intros files0 [[root dirs] names] w0 files1 w1 Hfiles0.
  unfold analyze_filenames. apply for_each_invariant; [|exact Hfiles0].
  clear. intros files filename w files' w' Hfiles.
  fold (selected filename). destruct (selected filename) eqn:Hsel.
  - intros Hrun. apply bind_ok in Hrun as (fc & w1 & Hfc & Hret).
    injection Hret as <- _. apply Forall_app. split; [exact Hfiles|].
    constructor; [|constructor].
    apply analyze_file_content_record in Hfc as (content & _ & ->). eauto.
  - intros [= <- _]. exact Hfiles.
Qed.

Lemma analyze_repository_context ext repo_url branch w ctx w' :
  analyze_repository ext repo_url branch w = (inr ctx, w') ->
  exists files structure walk w1 w2,
    analyze_files ext walk w1 = (inr files, w2) /\
    ctx = mkRepoContext (List.last (PyStr.split "/"%char repo_url) EmptyString)
            branch files structure
            (detect_main_languages files) (aggregate_dependencies files).
Proof.
  unfold analyze_repository. intros Hrun.
  apply try_finally_ok in Hrun as (w1 & Hbody & _).
  apply bind_ok in Hbody as (_ & w2 & _ & Hbody).
  apply bind_ok in Hbody as (structure & w3 & _ & Hbody).
  apply bind_ok in Hbody as (walk & w4 & _ & Hbody).
  apply bind_ok in Hbody as (files & w5 & Hfiles & Hbody).
  apply bind_ok in Hbody as (_ & w6 & _ & Hret).
  injection Hret as <- _. eauto 10.
Qed.

(** X10. A snapshot that [analyze_repository] returns is named after the last
    segment of the URL, ranks the languages of its own records, and has an
    empty dependency mapping: every record has no dependencies, the fixed
    description of its language, and no imports unless it is a Python file. *)
Theorem X10_snapshot_fields (ext : externals) (repo_url branch_name : string)
    (w : world) (ctx : RepoContext) (w' : world) :
  analyze_repository ext repo_url branch_name w = (inr ctx, w') ->
  repo_name ctx = List.last (PyStr.split "/"%char repo_url) EmptyString /\
  branch ctx = branch_name /\
  main_languages ctx = detect_main_languages (files ctx) /\
  repo_dependencies ctx = [] /\
  Forall (fun fc => dependencies fc = [] /\
                    description fc = "Source code file in " +:+ language fc /\
                    (language fc <> "python" -> imports fc = []))
         (files ctx).
Proof.
  intros Hrun.
  apply analyze_repository_context in Hrun
    as (fs & structure & walk & w1 & w2 & Hfiles & ->).
  apply analyze_files_file_records in Hfiles.
  cbn [repo_name branch main_languages repo_dependencies files].
  assert (Hshape : Forall (fun fc => dependencies fc = [] /\
                      description fc = "Source code file in " +:+ language fc /\
                      (language fc <> "python" -> imports fc = [])) fs).
  { eapply List.Forall_impl; [|exact Hfiles]. cbv beta.
    intros fc (root & filename & content & _ & ->). repeat split.
    intros Hlang. unfold file_record, imports_of in *. simpl in *.
    apply String.eqb_neq in Hlang. rewrite Hlang. reflexivity. }
  repeat split; try exact Hshape.
  rewrite aggregate_dependencies_tally.
  replace (flat_map dependencies fs) with (@nil string); [reflexivity|].
  clear -Hshape. induction Hshape as [|fc fs (Hd & _) _ IH]; [reflexivity|].
  simpl. rewrite Hd. exact IH.
Qed.

Lemma X10_snapshot_fields_witness :
  exists ctx w',
    analyze_repository Sample.externals Sample.url "main" Sample.fresh = (inr ctx, w') /\
    repo_name ctx = "repo" /\ repo_dependencies ctx = [].
Proof.
  destruct (analyze_repository Sample.externals Sample.url "main" Sample.fresh)
    as [[e|ctx] w'] eqn:Hrun; [vm_compute in Hrun; discriminate|].
  exists ctx, w'. split; [reflexivity|].
  destruct (X10_snapshot_fields _ _ _ _ _ _ Hrun) as (Hname & _ & _ & Hdeps & _).
  split; [rewrite Hname; reflexivity|exact Hdeps].
Defined.

Lemma endswith_same_length s suf :
  PyStr.endswith s suf = true -> String.length s = String.length suf -> s = suf.
Proof.
  destruct s as [|c s]; intros H Hlen.
  - rewrite endswith_nil in H. apply String.eqb_eq in H. exact H.
  - rewrite endswith_cons in H. apply orb_true_iff in H as [H|H].
    + apply String.eqb_eq in H. exact H.
    + apply endswith_length in H. simpl in Hlen. lia.
Qed.

(** The language of a selected name: the label of the suffix it ends with,
    or ["unknown"] when the name is nothing but that suffix. *)
Lemma selected_language filename :
  selected filename = true ->
  exists suf,
    In suf source_suffixes /\ PyStr.endswith filename suf = true /\
    detect_language (Path_suffix filename)
    = if String.eqb filename suf then "unknown" else detect_language suf.
Proof.
  unfold selected, PyStr.endswith_any. intros H.
  apply existsb_exists in H as (suf & Hsuf & Hends).
  exists suf. split; [exact Hsuf|]. split; [exact Hends|].
  assert (Hdot : PyStr.rfind_dot suf = Some 0 /\ 2 <= String.length suf).
  { unfold source_suffixes in Hsuf. simpl in Hsuf.
    repeat (destruct Hsuf as [<-|Hsuf]; [split; [reflexivity|simpl; lia]|]).
    destruct Hsuf. }
  destruct Hdot as [Hdot Hlen].
  destruct (rfind_dot_endswith filename suf Hdot Hends) as [Hr Hdrop].
  pose proof (endswith_length _ _ Hends) as Hle.
  unfold Path_suffix. rewrite Hr.
  destruct (String.eqb filename suf) eqn:E.
  - apply String.eqb_eq in E. subst. rewrite Nat.sub_diag. reflexivity.
  - apply String.eqb_neq in E.
    assert (String.length filename <> String.length suf)
      by (intros Heq; apply E, endswith_same_length; assumption).
    replace (0 <? String.length filename - String.length suf)%nat with true
      by (symmetry; apply Nat.ltb_lt; lia).
    replace (String.length filename - String.length suf <? String.length filename - 1)%nat
      with true by (symmetry; apply Nat.ltb_lt; lia).
    simpl. rewrite Hdrop. reflexivity.
Qed.

Lemma for_each_invariant_In {A S} (I : S -> Prop) (body : S -> A -> M S) (xs : list A) :
  (forall s x w s' w', In x xs -> I s -> body s x w = (inr s', w') -> I s') ->
  forall s w s' w', I s -> for_each xs body s w = (inr s', w') -> I s'.
Proof.
  induction xs as [|x xs IH]; intros Hbody s w s' w' Hs Hrun.
  - injection Hrun as <- _. exact Hs.
  - simpl in Hrun. apply bind_ok in Hrun as (s1 & w1 & H1 & H2).
    eapply IH; [|eapply Hbody; [left; reflexivity|exact Hs|exact H1]|exact H2].
    intros s0 x0 w0 s0' w0' Hin. apply Hbody. right. exact Hin.
Qed.

(** Every record comes from a file name that the walk lists. *)
Lemma analyze_files_walk_records ext walk w files w' :
  analyze_files ext walk w = (inr files, w') ->
  Forall (fun fc => exists root dirs names filename content,
              In (root, dirs, names) walk /\ In filename names /\
              selected filename = true /\
              fc = file_record ext (os_path_join root filename) content) files.
Proof.
  unfold analyze_files. apply for_each_invariant_In; [|constructor].
  intros files0 [[root dirs] names] w0 files1 w1 Hwalk Hfiles0.
  unfold analyze_filenames. apply for_each_invariant_In; [|exact Hfiles0].
  intros fs filename w2 fs' w2' Hname Hfs.
  fold (selected filename). destruct (selected filename) eqn:Hsel.
  - intros Hrun. apply bind_ok in Hrun as (fc & w3 & Hfc & Hret).
    injection Hret as <- _. apply Forall_app. split; [exact Hfs|].
    constructor; [|constructor].
    apply analyze_file_content_record in Hfc as (content & _ & ->).
    exists root, dirs, names, filename, content. auto.
  - intros [= <- _]. exact Hfs.
Qed.

(** When [clone_repository] returns, the scratch path holds what [fetched]
    says: the directory that was accepted, or the clone. *)
Lemma clone_repository_returns ext repo_url branch w w1 :
  clone_repository ext repo_url branch (temp_dir_of branch) w = (inr tt, w1) ->
  exists items,
    fetched ext repo_url branch w = Some items /\
    cwd w1 !! temp_dir_of branch = Some (Dir items).
Proof.
  unfold fetched.
  cbv [clone_repository try_except Repo Repo_clone_from os_path_exists logger emit
       set_cwd bind ret raise].
  cbn [environ cwd log console trace].
  destruct (cwd w !! temp_dir_of branch) as [[data|its|]|] eqn:Hp;
    cbn [environ cwd log console trace]; rewrite Hp; try discriminate.
  - destruct (is_git_repo ext its); [|discriminate].
    intros [= <-]. exists its. split; [reflexivity|exact Hp].
  - destruct (clone_from ext repo_url branch) as [its|]; [|discriminate].
    intros [= <-]. exists its. split; [reflexivity|]. cbn [cwd].
    apply lookup_insert_eq.
Qed.

(** The walk of a returned run is the walk of the fetched tree. *)
Lemma analyze_repository_walk ext repo_url branch w ctx w' :
  analyze_repository ext repo_url branch w = (inr ctx, w') ->
  exists items w1 w2,
    fetched ext repo_url branch w = Some items /\
    analyze_files ext (os_walk [temp_dir_of branch] (Dir items)) w1
    = (inr (files ctx), w2).
Proof.
  unfold analyze_repository. intros Hrun.
  apply try_finally_ok in Hrun as (wz & Hbody & _).
  apply bind_ok in Hbody as ([] & wa & Hclone & Hbody).
  apply bind_ok in Hbody as (structure & wb & Hstruct & Hbody).
  apply bind_ok in Hbody as (walk & wc & Hwalk & Hbody).
  apply bind_ok in Hbody as (fs & wd & Hfiles & Hbody).
  apply bind_ok in Hbody as (u & we & _ & Hret).
  injection Hret as <- _. cbn [files].
  apply clone_repository_returns in Hclone as (items & Hfetch & Hp).
  pose proof (analyze_file_structure_static (temp_dir_of branch) wa) as Hst.
  rewrite Hstruct in Hst. unfold static in Hst. injection Hst as Hcwd _.
  cbn [snd] in Hcwd.
  unfold os_walk_io in Hwalk. rewrite run_bind in Hwalk. cbn [emit cwd] in Hwalk.
  rewrite Hcwd, Hp in Hwalk. injection Hwalk as <- _.
  exists items, wc, wd. split; [exact Hfetch|exact Hfiles].
Qed.

(** The language of a name that ends with a listed suffix. *)
Lemma listed_suffix_language filename suf :
  In suf source_suffixes ->
  PyStr.endswith filename suf = true ->
  detect_language (Path_suffix filename)
  = if String.eqb filename suf then "unknown" else detect_language suf.
Proof.
  intros Hsuf Hends.
  assert (Hdot : PyStr.rfind_dot suf = Some 0 /\ 2 <= String.length suf).
  { unfold source_suffixes in Hsuf. simpl in Hsuf.
    repeat (destruct Hsuf as [<-|Hsuf]; [split; [reflexivity|simpl; lia]|]).
    destruct Hsuf. }
  destruct Hdot as [Hdot Hlen].
  destruct (rfind_dot_endswith filename suf Hdot Hends) as [Hr Hdrop].
  pose proof (endswith_length _ _ Hends) as Hle.
  unfold Path_suffix. rewrite Hr.
  destruct (String.eqb filename suf) eqn:E.
  - apply String.eqb_eq in E. subst. rewrite Nat.sub_diag. reflexivity.
  - apply String.eqb_neq in E.
    assert (String.length filename <> String.length suf)
      by (intros Heq; apply E, endswith_same_length; assumption).
    replace (0 <? String.length filename - String.length suf)%nat with true
      by (symmetry; apply Nat.ltb_lt; lia).
    replace (String.length filename - String.length suf <? String.length filename - 1)%nat
      with true by (symmetry; apply Nat.ltb_lt; lia).
    simpl. rewrite Hdrop. reflexivity.
Qed.

(** X11. In a returned snapshot every record is the record of a file name
    that the walk of the fetched tree lists and that ends with a listed
    suffix, and the language of such a record is fixed by that name: the
    table's label of the suffix ([python], [javascript], [java],
    [typescript], [go]) when the name is longer than the suffix, and
    ["unknown"] when the name is nothing but the suffix, like a file called
    [.py]. *)
Theorem X11_language_follows_the_suffix (ext : externals) (repo_url branch : string)
    (w : world) (ctx : RepoContext) (w' : world) :
  analyze_repository ext repo_url branch w = (inr ctx, w') ->
  (exists items,
      fetched ext repo_url branch w = Some items /\
      Forall (fun fc =>
                exists root dirs names filename content,
                  In (root, dirs, names) (os_walk [temp_dir_of branch] (Dir items)) /\
                  In filename names /\
                  PyStr.endswith_any filename [".py"; ".js"; ".java"; ".ts"; ".go"] = true /\
                  fc = file_record ext (os_path_join root filename) content)
             (files ctx)) /\
  (forall root filename content suf label,
      In (suf, label) [(".py", "python"); (".js", "javascript"); (".java", "java");
                       (".ts", "typescript"); (".go", "go")] ->
      PyStr.endswith filename suf = true ->
      language (file_record ext (os_path_join root filename) content)
      = if String.eqb filename suf then "unknown" else label).
Proof.
  intros Hrun. split.
  - apply analyze_repository_walk in Hrun as (items & w1 & w2 & Hfetch & Hfiles).
    exists items. split; [exact Hfetch|].
    apply analyze_files_walk_records in Hfiles. exact Hfiles.
  - intros root filename content suf label Hin Hends.
    unfold file_record. cbn [language]. rewrite last_os_path_join.
    rewrite (listed_suffix_language filename suf); [| |exact Hends].
    + destruct (String.eqb filename suf); [reflexivity|].
      simpl in Hin.
      repeat (destruct Hin as [Hin|Hin]; [injection Hin as <- <-; reflexivity|]).
      destruct Hin.
    + simpl in Hin. unfold source_suffixes. simpl.
      repeat (destruct Hin as [Hin|Hin]; [injection Hin as <- _; auto 10|]).
      destruct Hin.
Qed.

Lemma X11_language_follows_the_suffix_witness :
  exists ctx w',
    analyze_repository Sample.externals Sample.url "main" Sample.fresh = (inr ctx, w') /\
    exists items,
      fetched Sample.externals Sample.url "main" Sample.fresh = Some items /\
      Forall (fun fc =>
                exists root dirs names filename content,
                  In (root, dirs, names) (os_walk [temp_dir_of "main"] (Dir items)) /\
                  In filename names /\
                  PyStr.endswith_any filename [".py"; ".js"; ".java"; ".ts"; ".go"] = true /\
                  fc = file_record Sample.externals (os_path_join root filename) content)
             (files ctx).
Proof.
  destruct (analyze_repository Sample.externals Sample.url "main" Sample.fresh)
    as [[e|ctx] w'] eqn:Hrun; [vm_compute in Hrun; discriminate|].
  exists ctx, w'. split; [reflexivity|].
  exact (proj1 (X11_language_follows_the_suffix _ _ _ _ _ _ Hrun)).
Defined.

(** ** Writing the snapshot *)

Lemma write_file_ok name data what w :
  writable (cwd w) name = true ->
  write_file name data what w
  = (inr tt, mkWorld (environ w) (<[name := File data]> (cwd w)) (log w) (console w)
                     (trace w ++ [EvWrite name what])).
Proof.
  unfold writable, write_file. intros H.
  destruct (cwd w !! name) as [[data'|items|]|]; try discriminate; reflexivity.
Qed.

Lemma write_file_refused name data what w :
  writable (cwd w) name = false ->
  write_file name data what w
  = (inl (match cwd w !! name with
          | Some Special => OSError name
          | _ => IsADirectoryError name
          end), w).
Proof.
  unfold writable, write_file. intros H.
  destruct (cwd w !! name) as [[data'|items|]|]; try discriminate; reflexivity.
Qed.

Lemma writable_insert_file fs name data name' :
  writable fs name' = true -> writable (<[name := File data]> fs) name' = true.
Proof.
  unfold writable. intros H. destruct (decide (name = name')) as [->|Hne].
  - rewrite lookup_insert_eq. reflexivity.
  - rewrite lookup_insert_ne by exact Hne. exact H.
Qed.

Lemma save_context_run (ext : externals) (context : RepoContext) (filename : string)
    (w : world) :
  writable (cwd w) filename = true ->
  writable (cwd w) "repo_context.json" = true ->
  save_context ext context filename w
  = (inr tt,
     mkWorld (environ w)
       (<["repo_context.json" := File (Text (json_dumps ext (to_json context)))]>
          (<[filename := File Binary]> (cwd w)))
       (log w) (console w)
       (trace w ++ [EvWrite filename (Pickle context);
                    EvWrite "repo_context.json" (Json (to_json context))])).
Proof.
  intros H1 H2. unfold save_context. rewrite run_bind, write_file_ok by exact H1.
  rewrite write_file_ok by (apply writable_insert_file; exact H2).
  cbn [environ cwd log console trace]. rewrite <- app_assoc. reflexivity.
Qed.

(** X12. When both targets can be opened for writing, [save_context] writes
    the pickle under [filename] and then the document under
    [repo_context.json], whatever [filename] is; the document is built from
    the same snapshot, and nothing else in the directory changes.  With
    [filename] set to [repo_context.json] the document overwrites the pickle. *)
Theorem X12_save_context_writes_pickle_then_document (ext : externals)
    (context : RepoContext) (filename : string) (w : world) :
  writable (cwd w) filename = true ->
  writable (cwd w) "repo_context.json" = true ->
  save_context ext context filename w
  = (inr tt,
     mkWorld (environ w)
       (<["repo_context.json" := File (Text (json_dumps ext (to_json context)))]>
          (<[filename := File Binary]> (cwd w)))
       (log w) (console w)
       (trace w ++ [EvWrite filename (Pickle context);
                    EvWrite "repo_context.json" (Json (to_json context))])) /\
  cwd (snd (save_context ext context filename w)) !! "repo_context.json"
  = Some (File (Text (json_dumps ext (to_json context)))).
Proof.
  intros H1 H2. split; [apply save_context_run; assumption|].
  rewrite save_context_run by assumption. apply lookup_insert_eq.
Qed.

Lemma X12_save_context_writes_pickle_then_document_witness :
  let context := mkRepoContext "repo" "main" [] [] [] [] in
  cwd (snd (save_context Sample.externals context "repo_context.json" Sample.fresh))
    !! "repo_context.json"
  = Some (File (Text "repo@main")).
Proof.
  intros context.
  exact (proj2 (X12_save_context_writes_pickle_then_document Sample.externals context
                  "repo_context.json" Sample.fresh eq_refl eq_refl)).
Defined.

(** X13. [save_context] has no all-or-nothing guarantee: if the pickle cannot
    be opened it raises with nothing written, but if only
    [repo_context.json] cannot be opened (it is a directory, say) it raises
    after the pickle has been written. *)
Theorem X13_save_context_can_leave_the_pickle_alone (ext : externals)
    (context : RepoContext) (filename : string) (w : world) :
  (writable (cwd w) filename = false ->
   exists e, save_context ext context filename w = (inl e, w)) /\
  (writable (cwd w) filename = true ->
   filename <> "repo_context.json" ->
   writable (cwd w) "repo_context.json" = false ->
   exists e w',
     save_context ext context filename w = (inl e, w') /\
     cwd w' = <[filename := File Binary]> (cwd w) /\
     trace w' = (trace w ++ [EvWrite filename (Pickle context)])%list).
Proof.
  split.
  - intros H. unfold save_context. rewrite run_bind, write_file_refused by exact H. eauto.
  - intros H1 Hne H2. unfold save_context.
    rewrite run_bind, write_file_ok by exact H1.
    rewrite write_file_refused.
    + eexists _, _. split; [reflexivity|]. split; reflexivity.
    + unfold writable in *. cbn [cwd]. rewrite lookup_insert_ne by exact Hne. exact H2.
Qed.

Lemma X13_save_context_can_leave_the_pickle_alone_witness :
  let context := mkRepoContext "repo" "main" [] [] [] [] in
  let w := mkWorld ∅ {[ "repo_context.json" := Dir [] ]} [] [] [] in
  exists e w',
    save_context Sample.externals context "repo_context.pkl" w = (inl e, w') /\
    cwd w' = <["repo_context.pkl" := File Binary]> (cwd w) /\
    trace w' = [EvWrite "repo_context.pkl" (Pickle context)].
Proof.
  intros context w.
  apply (proj2 (X13_save_context_can_leave_the_pickle_alone Sample.externals context
                  "repo_context.pkl" w)); [reflexivity|discriminate|reflexivity].
Defined.

(** ** Failures of the fetch *)

(** X14. A failed clone is logged and re-raised, and it ends the run.  For a
    branch whose scratch path is one path component (no ['/'] in the branch
    name, so that the clone has no parent directory to create): with the
    scratch path free and the clone failing, [analyze_repository] raises the
    clone error having only logged the attempt and the error; it lists, reads
    and writes nothing, and there is nothing to clean up. *)
Theorem X14_failed_clone_aborts_the_run (ext : externals)
    (repo_url branch : string) (w : world) :
  one_component (temp_dir_of branch) = true ->
  cwd w !! temp_dir_of branch = None ->
  clone_from ext repo_url branch = None ->
  analyze_repository ext repo_url branch w
  = (inl (GitCommandError repo_url),
     mkWorld (environ w) (cwd w)
       (log w ++ [(INFO, "Cloning repository: " +:+ repo_url +:+ ", branch: " +:+ branch);
                  (ERROR, "Error cloning repository: " +:+ exn_str (GitCommandError repo_url))])
       (console w)
       (trace w ++ [EvClone repo_url branch (temp_dir_of branch)])).
Proof.
  intros _ Hfree Hclone.
  unfold analyze_repository, try_finally, clone_repository, try_except, os_path_exists,
    Repo_clone_from, logger, emit, raise, ret, bind.
  cbn [environ cwd log console trace].
  rewrite Hfree. cbn [environ cwd log console trace]. rewrite Hfree, Hclone.
  cbn [environ cwd log console trace]. rewrite Hfree.
  rewrite <- app_assoc. reflexivity.
Qed.

Lemma X14_failed_clone_aborts_the_run_witness :
  fst (analyze_repository Sample.externals "https://github.com/demo/missing" "main"
         Sample.fresh)
  = inl (GitCommandError "https://github.com/demo/missing").
Proof.
  rewrite (X14_failed_clone_aborts_the_run Sample.externals
             "https://github.com/demo/missing" "main" Sample.fresh eq_refl eq_refl eq_refl).
  reflexivity.
Defined.

(** X15. A directory that already stands at the scratch path is taken for
    the clone.  If it is not a git repository the run raises at once, and
    its cleanup still deletes that directory: nothing was cloned or written,
    and the directory that was found is gone. *)
Theorem X15_foreign_scratch_directory_is_deleted (ext : externals)
    (repo_url branch : string) (w : world) (items : list (string * entry)) :
  cwd w !! temp_dir_of branch = Some (Dir items) ->
  is_git_repo ext items = false ->
  analyze_repository ext repo_url branch w
  = (inl (InvalidGitRepositoryError (temp_dir_of branch)),
     mkWorld (environ w) (delete (temp_dir_of branch) (cwd w))
       (log w ++ [(ERROR, "Error cloning repository: " +:+
                          exn_str (InvalidGitRepositoryError (temp_dir_of branch)))])
       (console w)
       (trace w ++ [EvRmtree (temp_dir_of branch)])).
Proof.
  intros Hdir Hrepo.
  unfold analyze_repository, try_finally, clone_repository, try_except, os_path_exists,
    Repo, shutil_rmtree, logger, emit, raise, ret, set_cwd, bind.
  cbn [environ cwd log console trace].
  rewrite Hdir. cbn [environ cwd log console trace]. rewrite Hdir, Hrepo.
  cbn [environ cwd log console trace]. rewrite Hdir.
  cbn [environ cwd log console trace]. rewrite Hdir. reflexivity.
Qed.

Lemma X15_foreign_scratch_directory_is_deleted_witness :
  let w := mkWorld ∅ {[ "temp_repo_main" := Dir [("notes.txt", File (Text "keep"))] ]}
             [] [] [] in
  cwd (snd (analyze_repository Sample.externals Sample.url "main" w)) = ∅.
Proof.
  intros w.
  rewrite (X15_foreign_scratch_directory_is_deleted Sample.externals Sample.url "main" w
             [("notes.txt", File (Text "keep"))] eq_refl eq_refl).
  reflexivity.
Defined.

(** ** What a run leaves alone *)

Lemma preserves_try_finally {X A} (f : world -> X) (body : M A) (cleanup : M unit) :
  preserves f body -> preserves f cleanup -> preserves f (try_finally body cleanup).
Proof.
  intros Hb Hc w. rewrite try_finally_snd, Hc. apply Hb.
Qed.

Ltac quiet_step :=
  intros w; cbv [Repo Repo_clone_from open_read write_file shutil_rmtree
                 analyze_file_structure os_walk_io os_path_exists os_getenv
                 logger emit click_echo set_cwd bind ret raise lift];
  cbn [environ cwd log console trace]; repeat case_match; reflexivity.

Lemma logger_quiet lvl msg : preserves quiet (logger lvl msg).
Proof. quiet_step. Qed.

Lemma os_path_exists_quiet p : preserves quiet (os_path_exists p).
Proof. quiet_step. Qed.

Lemma Repo_quiet ext p : preserves quiet (Repo ext p).
Proof. quiet_step. Qed.

Lemma Repo_clone_from_quiet ext repo_url p branch :
  preserves quiet (Repo_clone_from ext repo_url p branch).
Proof. quiet_step. Qed.

Lemma open_read_quiet p : preserves quiet (open_read p).
Proof. quiet_step. Qed.

Lemma write_file_quiet name data what : preserves quiet (write_file name data what).
Proof. quiet_step. Qed.

Lemma shutil_rmtree_quiet p : preserves quiet (shutil_rmtree p).
Proof. quiet_step. Qed.

Lemma analyze_file_structure_quiet p : preserves quiet (analyze_file_structure p).
Proof. quiet_step. Qed.

Lemma os_walk_io_quiet p : preserves quiet (os_walk_io p).
Proof. quiet_step. Qed.

#[local] Hint Resolve logger_quiet os_path_exists_quiet Repo_quiet Repo_clone_from_quiet
  open_read_quiet write_file_quiet shutil_rmtree_quiet analyze_file_structure_quiet
  os_walk_io_quiet : frame.
#[local] Hint Extern 2 (preserves _ (try_finally _ _)) =>
  apply preserves_try_finally : frame.

Lemma analyze_files_quiet ext walk : preserves quiet (analyze_files ext walk).
Proof.
  unfold analyze_files, analyze_filenames. apply preserves_for_each.
  intros files [[root dirs] names]. apply preserves_for_each. intros files' filename.
  unfold analyze_file_content, extract_imports. auto 12 with frame.
Qed.

Lemma analyze_repository_quiet ext repo_url branch :
  preserves quiet (analyze_repository ext repo_url branch).
Proof.
  pose proof (analyze_files_quiet ext).
  unfold analyze_repository, clone_repository, save_context. cbv zeta.
  auto 20 with frame.
Qed.

(** X16. With a token set, the command never lets an error of the analysis
    out: it returns normally and prints exactly one line, the completion
    message when [analyze_repository] returned and ["Error: ..."] on the
    error stream when it raised; the files, the log and the trace are those
    the analysis left. *)
Theorem X16_command_reports_errors_and_returns (ext : externals)
    (repo_url branch output token : string) (w : world) :
  environ w !! "GITHUB_TOKEN" = Some token ->
  token <> EmptyString ->
  let run := analyze_repository ext repo_url branch w in
  let done := analyze_repo ext repo_url branch output w in
  fst done = inr tt /\
  console (snd done)
  = (console w ++
     [match fst run with
      | inr _ => (false, "Analysis completed. Context saved to " +:+ output)
      | inl e => (true, "Error: " +:+ exn_str e)
      end])%list /\
  cwd (snd done) = cwd (snd run) /\
  log (snd done) = log (snd run) /\
  trace (snd done) = trace (snd run).
Proof.
  intros Henv Htoken. cbv zeta.
  pose proof (analyze_repository_quiet ext repo_url branch w) as Hq.
  unfold quiet in Hq. injection Hq as _ Hconsole.
  unfold analyze_repo, os_getenv, try_except, GitHubAnalysisAgent, click_echo, bind, ret.
  rewrite Henv. destruct token as [|c token]; [congruence|].
  destruct (analyze_repository ext repo_url branch w) as [[e|ctx] w1];
    cbn [fst snd environ cwd log console trace] in *;
    rewrite Hconsole; repeat split.
Qed.

Lemma X16_command_reports_errors_and_returns_witness :
  let done := analyze_repo Sample.externals Sample.url "main" "out.json"
                Sample.undecodable in
  fst done = inr tt /\
  console (snd done)
  = [(true, "Error: " +:+ exn_str (UnicodeDecodeError "temp_repo_main/blob.py"))].
Proof.
  intros done.
  destruct (X16_command_reports_errors_and_returns Sample.externals Sample.url "main"
              "out.json" "ghp_demo" Sample.undecodable eq_refl ltac:(discriminate))
    as (H1 & H2 & _).
  split; [exact H1|]. unfold done. rewrite H2. reflexivity.
Defined.

(** X17. The [--output] option names no file: whatever it is set to, the
    command returns the same, writes the same files, logs the same and makes
    the same calls; the option only shows in the completion message. *)
Theorem X17_output_option_is_only_echoed (ext : externals)
    (repo_url branch output1 output2 : string) (w : world) :
  let done1 := analyze_repo ext repo_url branch output1 w in
  let done2 := analyze_repo ext repo_url branch output2 w in
  fst done1 = fst done2 /\
  cwd (snd done1) = cwd (snd done2) /\
  log (snd done1) = log (snd done2) /\
  trace (snd done1) = trace (snd done2) /\
  environ (snd done1) = environ (snd done2).
Proof.
  cbv zeta.
  unfold analyze_repo, os_getenv, try_except, GitHubAnalysisAgent, click_echo, bind, ret.
  destruct (environ w !! "GITHUB_TOKEN") as [[|c token]|];
    try (repeat split; reflexivity).
  destruct (analyze_repository ext repo_url branch w) as [[e|ctx] w1];
    cbn [fst snd environ cwd log console trace]; repeat split.
Qed.

Lemma clone_repository_other ext repo_url branch local_path p :
  p <> local_path ->
  preserves (fun w => cwd w !! p) (clone_repository ext repo_url branch local_path).
Proof.
  intros Hne w.
  cbv [clone_repository try_except Repo Repo_clone_from os_path_exists logger emit
       set_cwd bind ret raise].
  cbn [environ cwd log console trace]. repeat case_match; simplify_eq;
    cbn [snd cwd]; try reflexivity; apply lookup_insert_ne; congruence.
Qed.

Lemma cleanup_other temp_dir p :
  p <> temp_dir ->
  preserves (fun w => cwd w !! p)
    (present <- os_path_exists temp_dir ;;
     if present then shutil_rmtree temp_dir else ret tt).
Proof.
  intros Hne w.
  cbv [shutil_rmtree os_path_exists emit set_cwd bind ret].
  cbn [environ cwd log console trace]. repeat case_match; simplify_eq;
    cbn [snd cwd]; try reflexivity; apply lookup_delete_ne; congruence.
Qed.

Lemma analyze_repository_other ext repo_url branch p :
  p <> temp_dir_of branch -> p <> "repo_context.pkl" -> p <> "repo_context.json" ->
  preserves (fun w => cwd w !! p) (analyze_repository ext repo_url branch).
Proof.
  intros Htemp Hpkl Hjson. unfold analyze_repository. cbv zeta.
  apply preserves_try_finally; [|apply cleanup_other; exact Htemp].
  apply preserves_bind; [apply clone_repository_other; exact Htemp|intros _].
  apply preserves_bind;
    [apply preserves_static_cwd, analyze_file_structure_static|intros structure].
  apply preserves_bind; [apply preserves_static_cwd, os_walk_io_static|intros walk].
  apply preserves_bind; [apply preserves_static_cwd, analyze_files_static|intros files].
  apply preserves_bind; [apply save_context_other; assumption|intros _].
  apply preserves_ret.
Qed.

(** X18. For a branch whose scratch path is one path component (no ['/'] in
    the branch name), the command touches three names of the working
    directory and no other: the scratch directory of the branch,
    [repo_context.pkl] and [repo_context.json].  Every other entry is after
    the command what it was before, whether the run succeeded or not, and the
    environment is never changed. *)
Theorem X18_no_other_file_is_touched (ext : externals)
    (repo_url branch output p : string) (w : world) :
  one_component (temp_dir_of branch) = true ->
  p <> temp_dir_of branch -> p <> "repo_context.pkl" -> p <> "repo_context.json" ->
  cwd (snd (analyze_repo ext repo_url branch output w)) !! p = cwd w !! p /\
  cwd (snd (analyze_repository ext repo_url branch w)) !! p = cwd w !! p /\
  environ (snd (analyze_repo ext repo_url branch output w)) = environ w.
Proof.
  intros _ Htemp Hpkl Hjson.
  pose proof (analyze_repository_other ext repo_url branch p Htemp Hpkl Hjson w) as Hp.
  pose proof (analyze_repository_quiet ext repo_url branch w) as Hq.
  unfold quiet in Hq. injection Hq as Henv _.
  split; [|split; [exact Hp|]];
    unfold analyze_repo, os_getenv, try_except, GitHubAnalysisAgent, click_echo, bind, ret;
    destruct (environ w !! "GITHUB_TOKEN") as [[|c token]|]; try reflexivity;
    destruct (analyze_repository ext repo_url branch w) as [[e|ctx] w1];
    cbn [fst snd environ cwd log console trace] in *; assumption.
Qed.

Lemma X18_no_other_file_is_touched_witness :
  let w := set_cwd (insert "notes.txt" (File (Text "mine"))) Sample.fresh in
  cwd (snd (analyze_repo Sample.externals Sample.url "main" "out.json" w)) !! "notes.txt"
  = Some (File (Text "mine")).
Proof.
  intros w.
  rewrite (proj1 (X18_no_other_file_is_touched Sample.externals Sample.url "main"
                    "out.json" "notes.txt" w eq_refl ltac:(discriminate)
                    ltac:(discriminate) ltac:(discriminate))).
  reflexivity.
Defined.

(** ** A run that succeeds *)

Lemma clone_repository_fetched ext repo_url branch w items :
  fetched ext repo_url branch w = Some items ->
  exists w1,
    clone_repository ext repo_url branch (temp_dir_of branch) w = (inr tt, w1) /\
    cwd w1 = <[temp_dir_of branch := Dir items]> (cwd w).
Proof.
  unfold fetched. intros Hf.
  cbv [clone_repository try_except Repo Repo_clone_from os_path_exists logger emit
       set_cwd bind ret raise].
  cbn [environ cwd log console trace].
  destruct (cwd w !! temp_dir_of branch) as [[data|its|]|] eqn:Hp; try discriminate.
  - destruct (is_git_repo ext its) eqn:Hrepo; [|discriminate]. injection Hf as ->.
    rewrite Hp, Hrepo. eexists. split; [reflexivity|].
    symmetry. apply insert_id. exact Hp.
  - rewrite Hp, Hf. eexists. split; reflexivity.
Qed.

Lemma analyze_file_structure_run local_path items w :
  cwd w !! local_path = Some (Dir items) ->
  walkable (Dir items) = true ->
  exists w1,
    analyze_file_structure local_path w = (inr (visible_entries (Dir items)), w1) /\
    cwd w1 = cwd w.
Proof.
  intros Hp Hw. unfold analyze_file_structure. rewrite run_bind. cbn [emit cwd].
  rewrite Hp, (build_structure_visible _ Hw). eexists. split; reflexivity.
Qed.

Lemma os_walk_io_run top e w :
  cwd w !! top = Some e ->
  exists w', os_walk_io top w = (inr (os_walk [top] e), w') /\ cwd w' = cwd w.
Proof.
  intros Hp. unfold os_walk_io. rewrite run_bind. cbn [emit cwd]. rewrite Hp.
  eexists. split; reflexivity.
Qed.

(** X19. The conditions under which a run succeeds, and what it then
    returns and leaves behind, for a branch whose scratch path is one path
    component (no ['/'] in the branch name) and a fetched tree of regular
    files, directories and special entries, without symbolic links.  If the
    fetch gives a tree (an accepted directory at the scratch path, or a
    clone), the walker can list it, its selected files are text, and the two
    output names are free or files, then [analyze_repository] returns the
    snapshot of that tree: one record per selected file, the mapping of the
    visible entries, the ranking and the aggregate of those records.
    Afterwards the scratch directory is gone and the working directory has
    gained exactly the two output files. *)
Theorem X19_successful_run (ext : externals) (repo_url branch : string)
    (w : world) (items : list (string * entry)) :
  one_component (temp_dir_of branch) = true ->
  fetched ext repo_url branch w = Some items ->
  walkable (Dir items) = true ->
  analysable (Dir items) = true ->
  writable (cwd w) "repo_context.pkl" = true ->
  writable (cwd w) "repo_context.json" = true ->
  let files := tree_records ext [temp_dir_of branch] (Dir items) in
  let context :=
    mkRepoContext (List.last (PyStr.split "/"%char repo_url) EmptyString) branch
      files (visible_entries (Dir items))
      (detect_main_languages files) (aggregate_dependencies files) in
  fst (analyze_repository ext repo_url branch w) = inr context /\
  cwd (snd (analyze_repository ext repo_url branch w))
  = <["repo_context.json" := File (Text (json_dumps ext (to_json context)))]>
      (<["repo_context.pkl" := File Binary]> (delete (temp_dir_of branch) (cwd w))).
Proof.
  intros _ Hfetch Hwalk Hok Hpkl Hjson files context.
  destruct (temp_dir_not_output branch) as [Hne1 Hne2].
  destruct (clone_repository_fetched _ _ _ _ _ Hfetch) as (w1 & Hclone & Hcwd1).
  assert (Hp1 : cwd w1 !! temp_dir_of branch = Some (Dir items))
    by (rewrite Hcwd1; apply lookup_insert_eq).
  destruct (analyze_file_structure_run _ _ w1 Hp1 Hwalk) as (w2 & Hstruct & Hcwd2).
  assert (Hp2 : cwd w2 !! temp_dir_of branch = Some (Dir items)) by (rewrite Hcwd2; exact Hp1).
  destruct (os_walk_io_run _ _ w2 Hp2) as (w3 & Hwalkio & Hcwd3).
  rewrite Hcwd2 in Hcwd3.
  assert (Hres : resolve (cwd w3) [temp_dir_of branch] = Some (Dir items))
    by (simpl; rewrite Hcwd3, Hp1; reflexivity).
  destruct (analyze_tree ext (Dir items) [temp_dir_of branch] [] w3
              ltac:(discriminate) Hres Hok) as (w4 & Hfiles & Hst4).
  assert (Hcwd4 : cwd w4 = cwd w1) by (unfold static in Hst4; congruence).
  assert (Hwr : forall name, name <> temp_dir_of branch ->
                             writable (cwd w) name = true ->
                             writable (cwd w4) name = true).
  { intros name Hname H. unfold writable in *.
    rewrite Hcwd4, Hcwd1, lookup_insert_ne by congruence. exact H. }
  assert (Hbody :
    (clone_repository ext repo_url branch (temp_dir_of branch) ;;
     structure <- analyze_file_structure (temp_dir_of branch) ;;
     walk <- os_walk_io (temp_dir_of branch) ;;
     files <- analyze_files ext walk ;;
     let repo_context :=
       mkRepoContext (List.last (PyStr.split "/"%char repo_url) EmptyString)
         branch files structure
         (detect_main_languages files) (aggregate_dependencies files) in
     save_context ext repo_context "repo_context.pkl" ;;
     ret repo_context) w
    = (inr context,
       mkWorld (environ w4)
         (<["repo_context.json" := File (Text (json_dumps ext (to_json context)))]>
            (<["repo_context.pkl" := File Binary]> (cwd w4)))
         (log w4) (console w4)
         (trace w4 ++ [EvWrite "repo_context.pkl" (Pickle context);
                       EvWrite "repo_context.json" (Json (to_json context))]))).
  { rewrite run_bind, Hclone, run_bind, Hstruct, run_bind, Hwalkio, run_bind.
    unfold analyze_files. rewrite Hfiles. cbn [app]. cbv zeta. rewrite run_bind.
    fold files. fold context.
    rewrite save_context_run by (apply Hwr; [congruence|assumption]). reflexivity. }
  unfold analyze_repository, try_finally. cbv zeta in Hbody |- *. rewrite Hbody.
  cbv [os_path_exists shutil_rmtree emit set_cwd bind ret].
  cbn [environ cwd log console trace].
  rewrite !lookup_insert_ne by congruence. rewrite Hcwd4, Hp1.
  cbn [environ cwd log console trace]. rewrite !lookup_insert_ne by congruence.
  rewrite Hp1. cbn [fst snd cwd]. split; [reflexivity|].
  rewrite !delete_insert_ne by congruence. rewrite Hcwd1, delete_insert_eq. reflexivity.
Qed.

Lemma X19_successful_run_witness :
  cwd (snd (analyze_repository Sample.externals Sample.url "main" Sample.cloned))
  = {[ "repo_context.json" := File (Text "repo@main");
       "repo_context.pkl" := File Binary ]} /\
  map path (tree_records Sample.externals ["temp_repo_main"] (Dir Sample.repo_tree))
  = ["temp_repo_main/app.py"; "temp_repo_main/pkg/util.js"; "temp_repo_main/pkg/broken.py"].
Proof.
  split; [|reflexivity].
  rewrite (proj2 (X19_successful_run Sample.externals Sample.url "main" Sample.cloned
                    Sample.repo_tree eq_refl eq_refl eq_refl eq_refl eq_refl eq_refl)).
  apply map_eq. intros p. vm_compute. reflexivity.
Defined.

(** X20. When something that is not a directory stands at the scratch path,
    [clone_repository] fails and logs its error, and then the cleanup fails
    too: the exception that leaves [analyze_repository] is the
    [NotADirectoryError] of [shutil.rmtree], not the logged one, and the
    entry stays where it was. *)
Theorem X20_cleanup_error_replaces_the_fetch_error (ext : externals)
    (repo_url branch : string) (w : world) (e : entry) :
  cwd w !! temp_dir_of branch = Some e ->
  is_dir e = false ->
  analyze_repository ext repo_url branch w
  = (inl (NotADirectoryError (temp_dir_of branch)),
     mkWorld (environ w) (cwd w)
       (log w ++ [(ERROR, "Error cloning repository: " +:+
                          exn_str (InvalidGitRepositoryError (temp_dir_of branch)))])
       (console w)
       (trace w ++ [EvRmtree (temp_dir_of branch)])).
Proof.
  intros Hp Hdir.
  unfold analyze_repository, try_finally, clone_repository, try_except, os_path_exists,
    Repo, shutil_rmtree, logger, emit, raise, ret, set_cwd, bind.
  cbn [environ cwd log console trace].
  rewrite Hp. cbn [environ cwd log console trace]. rewrite Hp.
  destruct e as [data|items|]; [|discriminate|];
    cbn [environ cwd log console trace]; rewrite Hp;
    cbn [environ cwd log console trace]; rewrite Hp; reflexivity.
Qed.

Lemma X20_cleanup_error_replaces_the_fetch_error_witness :
  let w := mkWorld ∅ {[ "temp_repo_main" := File (Text "not a clone") ]} [] [] [] in
  fst (analyze_repository Sample.externals Sample.url "main" w)
  = inl (NotADirectoryError "temp_repo_main") /\
  cwd (snd (analyze_repository Sample.externals Sample.url "main" w)) = cwd w.
Proof.
  intros w.
  rewrite (X20_cleanup_error_replaces_the_fetch_error Sample.externals Sample.url "main" w
             (File (Text "not a clone")) eq_refl eq_refl).
  split; reflexivity.
Defined.
